(** * The NL2SQL ReAct example of agentscope, verified against its specification

    Source: [examples/conversation_nl2sql/react_nl2sql.ipynb].

    The notebook defines one tool, [generate_sql_query], with its nested
    helper [get_response_from_prompt], registers it together with
    [query_sqlite] in a [ServiceToolkit] and hands the toolkit to a
    [ReActAgent].  The tool is embedded from the notebook.  The toolkit,
    [query_sqlite] and the agent live in the agentscope package, outside the
    example: they are modelled from the specification and marked as such. *)

From stdpp Require Import gmap strings list.

Local Open Scope N_scope.

(** ** Python [str]

    A Python [str] is a sequence of Unicode code points; a code point is an
    [N].  [py] reads a literal. *)

Module PyStr.

Abbreviation char := N (only parsing).
Abbreviation str := (list N) (only parsing).

Definition py (s : string) : str :=
  Ascii.N_of_ascii <$> String.list_ascii_of_string s.

Definition LF : char := 10.
Definition SPACE : char := 32.

(** [str.isspace] on one code point: the table of CPython's
    [_PyUnicode_IsWhitespace]. *)
Definition isspace (c : char) : bool :=
  ((9 <=? c) && (c <=? 13)) || ((28 <=? c) && (c <=? 32))
  || (c =? 133) || (c =? 160) || (c =? 5760)
  || ((8192 <=? c) && (c <=? 8202))
  || (c =? 8232) || (c =? 8233) || (c =? 8239) || (c =? 8287) || (c =? 12288).

(** [s.startswith(p)] *)
Fixpoint startswith (s p : str) {struct p} : bool :=
  match p, s with
  | [], _ => true
  | _ :: _, [] => false
  | a :: p', b :: s' => (a =? b) && startswith s' p'
  end.

(** [s.replace(old, new)] for one-character [old] and [new], the only use in
    the notebook: every occurrence is replaced. *)
Definition replace (old new : char) (s : str) : str :=
  (λ c, if c =? old then new else c) <$> s.

(** [s.split()] without separator: the words between runs of whitespace,
    no empty word.  [word] is the word being read. *)
Fixpoint split_whitespace (s word : str) : list str :=
  match s with
  | [] => match word with [] => [] | _ => [word] end
  | c :: s' =>
      if isspace c
      then match word with
           | [] => split_whitespace s' []
           | _ => word :: split_whitespace s' []
           end
      else split_whitespace s' (word ++ [c])
  end.

Definition split (s : str) : list str := split_whitespace s [].

(** [sep.join(l)] *)
Fixpoint join (sep : str) (l : list str) : str :=
  match l with
  | [] => []
  | [w] => w
  | w :: l' => w ++ sep ++ join sep l'
  end.

(** [s.strip()]: whitespace removed at both ends. *)
Fixpoint lstrip (s : str) : str :=
  match s with
  | c :: s' => if isspace c then lstrip s' else s
  | [] => []
  end.

Definition rstrip (s : str) : str := reverse (lstrip (reverse s)).

Definition strip (s : str) : str := rstrip (lstrip s).

(** [s.split(sep)] for a non-empty [sep]: a scan from the left for
    non-overlapping occurrences.  [cur] is the piece being read and [skip]
    the number of characters of a matched separator still to pass. *)
Fixpoint split_sep_aux (sep s cur : str) (skip : nat) : list str :=
  match s with
  | [] => [cur]
  | c :: s' =>
      match skip with
      | S k => split_sep_aux sep s' cur k
      | O =>
          if startswith s sep
          then cur :: split_sep_aux sep s' [] (pred (length sep))
          else split_sep_aux sep s' (cur ++ [c]) 0
      end
  end.

Definition split_sep (sep s : str) : list str := split_sep_aux sep s [] 0.

(** [p in s] *)
Fixpoint contains (s p : str) : bool :=
  startswith s p || match s with [] => false | _ :: s' => contains s' p end.

End PyStr.

Import PyStr.

(** ** Shapes of strings, for the statements *)

Module Shape.

(** A word: not empty, no whitespace. *)
Definition word (w : str) : Prop := w ≠ [] ∧ Forall (λ c, isspace c = false) w.

(** No whitespace in front. *)
Definition head_nonspace (s : str) : bool :=
  match s with [] => true | c :: _ => negb (isspace c) end.

(** Every whitespace character is a space, and no whitespace follows it:
    words separated by single spaces, with at most one space at the end. *)
Fixpoint single_spaced (s : str) : bool :=
  match s with
  | [] => true
  | c :: s' =>
      (negb (isspace c) || ((c =? SPACE) && head_nonspace s')) && single_spaced s'
  end.

(** The text before the first occurrence of [sep]; all of it without one. *)
Fixpoint before (sep s : str) : str :=
  match s with
  | [] => []
  | c :: s' => if startswith s sep then [] else c :: before sep s'
  end.

(** The text from the first occurrence of [sep] onward; nothing without
    one. *)
Fixpoint from_first (sep s : str) : str :=
  match s with
  | [] => []
  | _ :: s' => if startswith s sep then s else from_first sep s'
  end.

End Shape.

Import Shape.

(** ** Exceptions

    A Python call either returns a value or raises; [result] makes the second
    outcome explicit and [x ← c; k] stops at the first raise. *)

Module Py.

Inductive exn :=
  | KeyError (key : str)
  | IndexError
  | Fault (detail : str).

Inductive result (A : Type) :=
  | Ok (a : A)
  | Raise (e : exn).
Arguments Ok {A} a.
Arguments Raise {A} e.

#[export] Instance result_ret : MRet result := λ A, Ok.
#[export] Instance result_bind : MBind result := λ A B k c,
  match c with Ok a => k a | Raise e => Raise e end.

#[export] Instance result_fmap : FMap result := λ A B f c,
  match c with Ok a => Ok (f a) | Raise e => Raise e end.

Definition raises {A} (c : result A) : bool :=
  match c with Ok _ => false | Raise _ => true end.

Abbreviation dict := (gmap (list N) (list N)) (only parsing).

(** [d[k]] *)
Definition getitem (d : dict) (k : str) : result str :=
  match d !! k with Some v => Ok v | None => Raise (KeyError k) end.

(** [l[0]] *)
Definition first {A} (l : list A) : result A :=
  match l with x :: _ => Ok x | [] => Raise IndexError end.

End Py.

Import Py.

(** ** The tool of the notebook: [generate_sql_query] *)

Module NL2SQL.

(** Modelled from the spec: the enumeration [ServiceExecStatus] is declared in
    agentscope.service, outside the example, which names only [SUCCESS]; the
    specification (section 3) gives the two values. *)
Inductive ServiceExecStatus := SUCCESS | FAILURE.

#[export] Instance ServiceExecStatus_eq_dec : EqDecision ServiceExecStatus.
Proof. solve_decision. Defined.

(** [ServiceResponse(status, content)] *)
Record ServiceResponse := mkServiceResponse {
  status : ServiceExecStatus;
  content : str;
}.

(** What a model call returns: the notebook reads its [text]. *)
Record ModelResponse := { text : str }.

(** A model is a callable from a list of role-tagged messages to a response
    (it may raise). *)
Definition Model : Type := list dict → result ModelResponse.

(** The nested function of [generate_sql_query], as written: the three-way
    branch is kept. *)
Definition get_response_from_prompt (prompt : str) (model : Model) : result str :=
  let messages := [ ({[ py "role" := py "assistant"; py "content" := prompt ]} : dict) ] in
  r ← model messages;
  let sql := text r in
  let sql := join (py " ") (split (replace LF SPACE sql)) in
  sql ← first (split_sep (py "/*") (strip sql));
  if startswith sql (py "SELECT") then
    mret (sql ++ [LF])
  else if startswith sql (py " ") then
    mret (py "SELECT" ++ sql ++ [LF])
  else
    mret (py "SELECT " ++ sql ++ [LF]).

(** The two-way function the specification compares it with: the normalized
    completion plus a newline when it starts with SELECT, and SELECT, a space,
    the normalized completion and a newline otherwise.  The normalization is
    the one of the source. *)
Definition normalized_completion (completion : str) : result str :=
  first (split_sep (py "/*")
           (strip (join (py " ") (split (replace LF SPACE completion))))).

Definition two_way_response (prompt : str) (model : Model) : result str :=
  let messages := [ ({[ py "role" := py "assistant"; py "content" := prompt ]} : dict) ] in
  r ← model messages;
  sql ← normalized_completion (text r);
  if startswith sql (py "SELECT") then mret (sql ++ [LF])
  else mret (py "SELECT " ++ sql ++ [LF]).

(** The model answers [prompt] with the text [completion]. *)
Definition completes (model : Model) (prompt completion : str) : Prop :=
  model [ ({[ py "role" := py "assistant"; py "content" := prompt ]} : dict) ]
  = Ok {| text := completion |}.

(** The completion with its whitespace collapsed and cut at the first
    comment opener, and the response built from it, in closed form. *)
Definition collapsed (completion : str) : str :=
  before (py "/*") (join (py " ") (split (replace LF SPACE completion))).

Definition body_of (completion : str) : str :=
  let n := collapsed completion in
  if startswith n (py "SELECT") then n else py "SELECT " ++ n.

Definition response_of (completion : str) : str := body_of completion ++ [LF].

Section Tool.

(** The prompt builder of sql_utils (DAIL-SQL), an external collaborator:
    a constructor from the database path and the method [generate_prompt],
    from a dictionary holding the question to a dictionary holding the
    prompt.  Either may raise. *)
Context {PromptGenerator : Type}.
Context (DailSQLPromptGenerator : str → result PromptGenerator).
Context (generate_prompt : PromptGenerator → dict → result dict).

Definition generate_sql_query (question db_path : str) (model : Model)
  : result ServiceResponse :=
  prompt_helper ← DailSQLPromptGenerator db_path;
  prepared_prompt ← generate_prompt prompt_helper {[ py "content" := question ]};
  prompt ← getitem prepared_prompt (py "prompt");
  sql_response ← get_response_from_prompt prompt model;
  mret (mkServiceResponse SUCCESS sql_response).

(** The prompt builder returns normally and the model answers the prompt
    it built with [completion]. *)
Definition answers (question db_path : str) (model : Model) (completion : str)
  : Prop :=
  ∃ prompt_helper prepared_prompt prompt,
    DailSQLPromptGenerator db_path = Ok prompt_helper
    ∧ generate_prompt prompt_helper {[ py "content" := question ]}
      = Ok prepared_prompt
    ∧ prepared_prompt !! py "prompt" = Some prompt
    ∧ completes model prompt completion.

(** The prompt builder fails with [e]: in its constructor or in
    [generate_prompt]. *)
Definition builder_fails (question db_path : str) (e : exn) : Prop :=
  DailSQLPromptGenerator db_path = Raise e
  ∨ ∃ prompt_helper,
      DailSQLPromptGenerator db_path = Ok prompt_helper
      ∧ generate_prompt prompt_helper {[ py "content" := question ]} = Raise e.

End Tool.

(** Stand-ins for the collaborators, to run the tool on. *)
Definition fixed_builder : str → result unit := λ _, Ok tt.
Definition fixed_prompt (prompt : str) : unit → dict → result dict :=
  λ _ _, Ok {[ py "prompt" := prompt ]}.
Definition fixed_model (completion : str) : Model :=
  λ _, Ok {| text := completion |}.
Definition unreadable_schema : str → result unit :=
  λ _, Raise (Fault (py "unable to open database file")).

End NL2SQL.

(** ** The Tool Registry *)

Module Registry.
Import NL2SQL.

(** Modelled from the spec: the Tool Registry is the [ServiceToolkit] of
    agentscope.service, of which the notebook holds only the two calls of
    [add]; its data (section 3: ToolDescriptor, ToolCallRequest,
    ExecutionResult) and its contract (section 4.1) are taken from the
    specification. *)
Inductive Value :=
  | VStr (s : str)
  | VInt (z : Z)
  | VBool (b : bool)
  | VObj (ref : str).

#[export] Instance Value_eq_dec : EqDecision Value.
Proof. solve_decision. Defined.

Inductive Ty := TStr | TInt | TBool | TObj.

#[export] Instance Ty_eq_dec : EqDecision Ty.
Proof. solve_decision. Defined.

Definition type_of (v : Value) : Ty :=
  match v with
  | VStr _ => TStr
  | VInt _ => TInt
  | VBool _ => TBool
  | VObj _ => TObj
  end.

Record Param := {
  pname : str;
  ptype : Ty;
  required : bool;
  pdescription : str;
}.

Abbreviation Args := (gmap (list N) Value) (only parsing).

Record ToolCallRequest := {
  tool_name : str;
  arguments : Args;
}.

(** The errors of sections 4.1 and 4.2, and their classes of section 7. *)
Inductive ErrorDetail :=
  | UnknownToolError (tool : str)
  | MissingArgumentError (parameter : str)
  | UnexpectedArgumentError (parameter : str)
  | TypeMismatchError (parameter : str)
  | HandlerFault (e : exn)
  | MutationNotAllowedError (query : str)
  | EngineError (e : exn).

Inductive ErrorClass :=
  | ToolResolutionError
  | PolicyViolationError
  | ExecutionFault.

Definition error_class (e : ErrorDetail) : ErrorClass :=
  match e with
  | UnknownToolError _ | MissingArgumentError _
  | UnexpectedArgumentError _ | TypeMismatchError _ => ToolResolutionError
  | MutationNotAllowedError _ => PolicyViolationError
  | HandlerFault _ | EngineError _ => ExecutionFault
  end.

Inductive Payload :=
  | PText (t : str)
  | PRows (rows : list (list Value)).

Record ExecutionResult := {
  er_status : ServiceExecStatus;
  payload : Payload;
  error_detail : option ErrorDetail;
}.

Definition failure (e : ErrorDetail) : ExecutionResult :=
  {| er_status := FAILURE; payload := PText []; error_detail := Some e |}.

Definition success (p : Payload) : ExecutionResult :=
  {| er_status := SUCCESS; payload := p; error_detail := None |}.

(** A [ServiceResponse] of a tool of the notebook, in that shape. *)
Definition of_response (r : ServiceResponse) : ExecutionResult :=
  {| er_status := status r; payload := PText (content r); error_detail := None |}.

(** What the model is shown of a tool. *)
Record SchemaSummary := {
  s_name : str;
  s_description : str;
  s_parameters : list Param;
}.

Section WithWorld.

(** [W] is what handlers act on (for [query_sqlite], the database). *)
Context {W : Type}.

Definition Handler : Type := Args → W → W * result ExecutionResult.

Record ToolDescriptor := {
  name : str;
  description : str;
  params : list Param;
  bound_arguments : Args;
  handler : Handler;
}.

(** A registry: its descriptors, in registration order. *)
Definition Registry : Type := list ToolDescriptor.

Definition lookup_tool (reg : Registry) (n : str) : option ToolDescriptor :=
  List.find (λ d, bool_decide (name d = n)) reg.

Inductive Registration :=
  | Added (reg : Registry)
  | DuplicateToolError (tool : str).

Definition register (d : ToolDescriptor) (reg : Registry) : Registration :=
  match lookup_tool reg (name d) with
  | Some _ => DuplicateToolError (name d)
  | None => Added (reg ++ [d])
  end.

(** Modelled from the spec: [describe_all] of section 4.1, with the
    invariant of section 3 that bound arguments are not exposed; bound
    arguments are left out of what the model is shown. *)
Definition describe (d : ToolDescriptor) : SchemaSummary :=
  {| s_name := name d;
     s_description := description d;
     s_parameters :=
       List.filter (λ p, bool_decide (bound_arguments d !! pname p = None))
         (params d) |}.

Definition describe_all (reg : Registry) : list SchemaSummary := describe <$> reg.

(** Modelled from the spec: step 2 of [dispatch] in section 4.1; a required
    parameter neither bound nor supplied, a supplied name that is no
    parameter, a supplied value of another type. *)
Definition missing_argument (d : ToolDescriptor) (args : Args)
  : option Param :=
  List.find (λ p, required p
                  && bool_decide (bound_arguments d !! pname p = None)
                  && bool_decide (args !! pname p = None))
    (params d).

Definition unexpected_argument (d : ToolDescriptor) (args : Args)
  : option str :=
  List.find (λ k, bool_decide (k ∉ (pname <$> params d)))
    (fst <$> map_to_list args).

Definition mismatched_argument (d : ToolDescriptor) (args : Args)
  : option Param :=
  List.find (λ p, match args !! pname p with
                  | Some v => bool_decide (type_of v ≠ ptype p)
                  | None => false
                  end)
    (params d).

Definition validate (d : ToolDescriptor) (args : Args) : option ErrorDetail :=
  match missing_argument d args with
  | Some p => Some (MissingArgumentError (pname p))
  | None =>
      match unexpected_argument d args with
      | Some k => Some (UnexpectedArgumentError k)
      | None =>
          match mismatched_argument d args with
          | Some p => Some (TypeMismatchError (pname p))
          | None => None
          end
      end
  end.

(** Modelled from the spec: steps 1 to 3 of [dispatch] in section 4.1; the
    failure to report, or the handler to invoke and the arguments it is
    invoked on.  The bound arguments are on the left of the union, which is
    where [∪] on maps looks first. *)
Definition resolve (reg : Registry) (req : ToolCallRequest)
  : ExecutionResult + ToolDescriptor * Args :=
  match lookup_tool reg (tool_name req) with
  | None => inl (failure (UnknownToolError (tool_name req)))
  | Some d =>
      match validate d (arguments req) with
      | Some e => inl (failure e)
      | None => inr (d, bound_arguments d ∪ arguments req)
      end
  end.

(** Modelled from the spec: step 4 of [dispatch] in section 4.1; a fault of
    the handler becomes a FAILURE. *)
Definition capture (r : result ExecutionResult) : ExecutionResult :=
  match r with
  | Ok x => x
  | Raise e => failure (HandlerFault e)
  end.

(** Modelled from the spec: [dispatch] of section 4.1, the four steps in
    their order. *)
Definition dispatch (reg : Registry) (req : ToolCallRequest) (w : W)
  : W * ExecutionResult :=
  match resolve reg req with
  | inl failed => (w, failed)
  | inr (d, args) => let '(w', r) := handler d args w in (w', capture r)
  end.

End WithWorld.

Arguments ToolDescriptor : clear implicits.
Arguments Registry : clear implicits.
Arguments Handler : clear implicits.
Arguments Registration : clear implicits.

End Registry.

(** ** The SQL Execution Guard *)

Module Guard.
Import NL2SQL Registry.

(** Modelled from the spec: the SQL Execution Guard is [query_sqlite] of
    agentscope.service, which the notebook imports and registers; its
    contract is section 4.2 of the specification, with the connection of
    section 6. *)
Class Connection (C : Type) := {
  conn_execute : str → C → C * result (list (list Value));
  conn_commit : C → C;
}.

Record Handle (C : Type) := {
  connection : C;
  mutation_allowed : bool;
}.
Arguments connection {C} h.
Arguments mutation_allowed {C} h.

Inductive StatementClass := ReadOnly | DataMutating | SchemaMutating.

Definition is_mutating (k : StatementClass) : bool :=
  match k with ReadOnly => false | DataMutating | SchemaMutating => true end.

(** An ASCII letter in upper case. *)
Definition upper (c : char) : char :=
  if (97 <=? c) && (c <=? 122) then c - 32 else c.

(** The leading keyword: the first word of the statement, whitespace apart,
    in upper case. *)
Definition leading_keyword (query : str) : str :=
  match split query with
  | [] => []
  | w :: _ => upper <$> w
  end.

Definition data_keywords : list str := [py "INSERT"; py "UPDATE"; py "DELETE"].
Definition schema_keywords : list str := [py "DROP"; py "ALTER"; py "CREATE"].

(** Modelled from the spec: the classification of section 4.2, by the
    leading keyword.  [more_data] and [more_schema] stand for the keywords
    the specification leaves open after the six it names. *)
Definition classify (more_data more_schema : list str) (query : str)
  : StatementClass :=
  let k := leading_keyword query in
  if bool_decide (k ∈ data_keywords ++ more_data) then DataMutating
  else if bool_decide (k ∈ schema_keywords ++ more_schema) then SchemaMutating
  else ReadOnly.

Section Execute.
Context {C : Type} `{Connection C}.
Context (more_data more_schema : list str).

(** Modelled from the spec: [execute] of section 4.2; the refusal first,
    then the statement on the connection, a commit after a permitted
    mutation, and the engine's fault as a FAILURE. *)
Definition execute (handle : Handle C) (query : str) : C * ExecutionResult :=
  let mutating := is_mutating (classify more_data more_schema query) in
  if mutating && negb (mutation_allowed handle) then
    (connection handle, failure (MutationNotAllowedError query))
  else
    match conn_execute query (connection handle) with
    | (c, Ok rows) =>
        ((if mutating then conn_commit c else c), success (PRows rows))
    | (c, Raise e) => (c, failure (EngineError e))
    end.

End Execute.

(** A connection that records what reaches it: the statements, in order,
    and the commits; [answer] is what the engine returns. *)
Record Mock := {
  answer : str → result (list (list Value));
  statements : list str;
  commits : nat;
}.

#[export] Instance Mock_connection : Connection Mock := {|
  conn_execute q m :=
    ({| answer := answer m; statements := statements m ++ [q]; commits := commits m |},
     answer m q);
  conn_commit m :=
    {| answer := answer m; statements := statements m; commits := S (commits m) |};
|}.

Definition fresh_mock (answer : str → result (list (list Value))) : Mock :=
  {| answer := answer; statements := []; commits := 0 |}.

(** The number of calls that reached the connection. *)
Definition call_count (m : Mock) : nat := length (statements m).

End Guard.

(** ** The reasoning-action loop *)

Module Loop.
Import NL2SQL Registry.
Local Open Scope nat_scope.

(** Modelled from the spec: the Reasoning-Action Loop is the [ReActAgent] of
    agentscope.agents, which the notebook only constructs and calls; its
    data (section 3: Message, Decision), the parser's result (section 4.4),
    the state machine (section 4.5) and the entry point (section 6) are taken
    from the specification.  Timestamps and timeouts, which need a clock,
    are left out. *)
Inductive Role := user | assistant | system.

#[export] Instance Role_eq_dec : EqDecision Role.
Proof. solve_decision. Defined.

Record Decision := {
  thought : str;
  speak : str;
  calls : list ToolCallRequest;
}.

Inductive Content :=
  | Text (t : str)
  | Decided (d : Decision)
  | SystemPrompt (sys_prompt : str) (tools : list SchemaSummary)
  | Corrective (raw : str)
  | Observation (index : nat) (r : ExecutionResult).

Record Message := {
  role : Role;
  msg_name : str;
  msg_content : Content;
}.

(** [parse(raw_text)] *)
Inductive Parsed :=
  | Valid (d : Decision)
  | MalformedDecisionError (raw : str).

Record Config := {
  agent_name : str;
  sys_prompt : str;
  max_iterations : nat;
  max_parse_retries : nat;
}.

Inductive Budget := Iterations | ParseRetries.

Inductive FailureReason := BudgetExhaustedError (b : Budget).

(** The states; [iteration] counts from 1, as the agent prints it, and
    [retries] counts the malformed outputs of the turn so far. *)
Inductive LoopState :=
  | REASONING (conv : list Message) (iteration retries : nat)
  | ACTION (conv : list Message) (iteration retries : nat)
      (batch : list ToolCallRequest)
  | TERMINATED (conv : list Message) (final : Message)
  | FAILED (conv : list Message) (reason : FailureReason).

Inductive Phase := Reasoning | Action.

#[export] Instance Phase_eq_dec : EqDecision Phase.
Proof. solve_decision. Defined.

(** The phase a state is about to run, with its iteration; none when the
    state is terminal. *)
Definition phase_of (s : LoopState) : option (nat * Phase) :=
  match s with
  | REASONING _ i _ => Some (i, Reasoning)
  | ACTION _ i _ _ => Some (i, Action)
  | TERMINATED _ _ | FAILED _ _ => None
  end.

(** What [turn] hands back: the conversation and the final assistant
    message or the reason of the failure; nothing in a state that is not
    terminal. *)
Definition outcome (s : LoopState)
  : option (list Message * (Message + FailureReason)) :=
  match s with
  | TERMINATED conv final => Some (conv, inl final)
  | FAILED conv reason => Some (conv, inr reason)
  | REASONING _ _ _ | ACTION _ _ _ _ => None
  end.

Section Orchestrator.

Context {W : Type}.
Context (cfg : Config).
Context (model : list Message → str).
Context (parse : str → Parsed).
Context (registry : Registry W).

Definition says (t : str) : Message :=
  {| role := assistant; msg_name := agent_name cfg; msg_content := Text t |}.

Definition decided (d : Decision) : Message :=
  {| role := assistant; msg_name := agent_name cfg; msg_content := Decided d |}.

Definition corrective (raw : str) : Message :=
  {| role := system; msg_name := py "system"; msg_content := Corrective raw |}.

Definition observation (tool : str) (index : nat) (r : ExecutionResult) : Message :=
  {| role := system; msg_name := tool; msg_content := Observation index r |}.

(** The prompt: the system prompt and the schema summaries, then the whole
    conversation. *)
Definition assemble (conv : list Message) : list Message :=
  {| role := system; msg_name := py "system";
     msg_content := SystemPrompt (sys_prompt cfg) (describe_all registry) |}
  :: conv.

(** Modelled from the spec: the ACTION phase of section 4.5; the calls in
    request order, one after the other, each result appended under its tool
    name and index. *)
Fixpoint act (batch : list ToolCallRequest) (index : nat)
    (conv : list Message) (w : W) : list Message * W :=
  match batch with
  | [] => (conv, w)
  | req :: rest =>
      let '(w', r) := dispatch registry req w in
      act rest (S index) (conv ++ [observation (tool_name req) index r]) w'
  end.

(** Modelled from the spec: the transitions of section 4.5.  A malformed
    output leads back to REASONING while the malformed outputs of the turn
    are fewer than [max_parse_retries], and to FAILED from then on; a decision
    without calls leads to TERMINATED; after an ACTION phase the next
    iteration starts if the budget has one left, and the turn is FAILED
    otherwise. *)
Definition step (s : LoopState) (w : W) : LoopState * W :=
  match s with
  | REASONING conv i r =>
      match parse (model (assemble conv)) with
      | MalformedDecisionError raw =>
          let conv' := conv ++ [corrective raw] in
          if S r <? max_parse_retries cfg
          then (REASONING conv' i (S r), w)
          else (FAILED conv' (BudgetExhaustedError ParseRetries), w)
      | Valid d =>
          match calls d with
          | [] => (TERMINATED (conv ++ [says (speak d)]) (says (speak d)), w)
          | _ :: _ => (ACTION (conv ++ [decided d]) i r (calls d), w)
          end
      end
  | ACTION conv i r batch =>
      let '(conv', w') := act batch 1 conv w in
      if i <? max_iterations cfg
      then (REASONING conv' (S i) r, w')
      else (FAILED conv' (BudgetExhaustedError Iterations), w')
  | TERMINATED _ _ | FAILED _ _ => (s, w)
  end.

(** Modelled from the spec: the loop of section 4.5, on [fuel] steps at
    most; the phases run, the state reached and the world left. *)
Fixpoint run (fuel : nat) (s : LoopState) (w : W)
  : list (nat * Phase) * LoopState * W :=
  match fuel with
  | O => ([], s, w)
  | S fuel' =>
      match phase_of s with
      | None => ([], s, w)
      | Some ph =>
          let '(s', w') := step s w in
          let '(trace, final, w'') := run fuel' s' w' in
          (ph :: trace, final, w'')
      end
  end.

Definition start (conv : list Message) (user_message : Message) : LoopState :=
  let conv' := conv ++ [user_message] in
  if 1 <=? max_iterations cfg
  then REASONING conv' 1 0
  else FAILED conv' (BudgetExhaustedError Iterations).

(** Modelled from the spec: the entry point [turn] of section 6; a turn
    starts in REASONING, in iteration 1, if the budget has an iteration at
    all.  Two steps an iteration and one a retry are all the loop can
    take. *)
Definition turn_fuel : nat := 2 * max_iterations cfg + max_parse_retries cfg.

Definition turn (conv : list Message) (user_message : Message) (w : W)
  : list (nat * Phase) * LoopState * W :=
  run turn_fuel (start conv user_message) w.

(** The steps a state still has before it: the measure of the loop. *)
Definition remaining (s : LoopState) : nat :=
  match s with
  | REASONING _ i r =>
      2 * (max_iterations cfg - i) + (max_parse_retries cfg - r) + 2
  | ACTION _ i r _ =>
      2 * (max_iterations cfg - i) + (max_parse_retries cfg - r) + 1
  | TERMINATED _ _ | FAILED _ _ => 0
  end.

(** The iteration of a state that is not terminal lies within the budget. *)
Definition in_budget (s : LoopState) : Prop :=
  match phase_of s with
  | Some (i, _) => 1 ≤ i ≤ max_iterations cfg
  | None => True
  end.

(** Bounds on the phases still to run from a state. *)
Definition actions_left (s : LoopState) : nat :=
  match s with
  | REASONING _ i _ | ACTION _ i _ _ => S (max_iterations cfg) - i
  | TERMINATED _ _ | FAILED _ _ => 0
  end.

Definition reasonings_left (s : LoopState) : nat :=
  match s with
  | REASONING _ i r => S (max_iterations cfg) - i + (max_parse_retries cfg - r)
  | ACTION _ i r _ => max_iterations cfg - i + (max_parse_retries cfg - r)
  | TERMINATED _ _ | FAILED _ _ => 0
  end.

End Orchestrator.

Definition count_phase (p : Phase) (trace : list (nat * Phase)) : nat :=
  length (List.filter (λ e, bool_decide (e.2 = p)) trace).

End Loop.

(** ** The toolkit and the agent the notebook builds *)

Module Notebook.
Import NL2SQL Registry Guard Loop.

Definition db_sqlite_path : str :=
  py "./database/concert_singer/concert_singer.sqlite".

Section Toolkit.

Context {PromptGenerator : Type}.
Context (DailSQLPromptGenerator : str → result PromptGenerator).
Context (generate_prompt : PromptGenerator → dict → result dict).
(** [model_manager.get_model_by_config_name]: a model object is named by its
    configuration. *)
Context (get_model_by_config_name : str → Model).
Context {C : Type} `{Connection C}.
Context (more_data more_schema : list str).

Definition param (n : string) (t : Ty) (req : bool) : Param :=
  {| pname := py n; ptype := t; required := req; pdescription := [] |}.

(** A call with arguments of another type than the signature's is a
    [TypeError] of the call. *)
Definition type_error : exn := Fault (py "TypeError").

(** [service_toolkit.add(generate_sql_query, db_path=db_sqlite_path,
    model=loaded_model)] *)
Definition generate_sql_query_tool : ToolDescriptor C :=
  {| name := py "generate_sql_query";
     description :=
       py "Generate the sql query based on the natural language question from user.";
     params := [param "question" TStr true; param "db_path" TStr true;
                param "model" TObj true];
     bound_arguments :=
       {[ py "db_path" := VStr db_sqlite_path; py "model" := VObj (py "gpt-4") ]};
     handler := λ args w,
       match args !! py "question", args !! py "db_path", args !! py "model" with
       | Some (VStr question), Some (VStr db_path), Some (VObj m) =>
           (w, of_response <$>
                 generate_sql_query DailSQLPromptGenerator generate_prompt
                   question db_path (get_model_by_config_name m))
       | _, _, _ => (w, Raise type_error)
       end |}.

(** [service_toolkit.add(query_sqlite, database=db_sqlite_path)]; the
    permission to change data is an argument of each call and is false when
    left out. *)
Definition query_sqlite_tool : ToolDescriptor C :=
  {| name := py "query_sqlite";
     description := py "Execute a query on the sqlite database.";
     params := [param "database" TStr true; param "query" TStr true;
                param "allow_change_data" TBool false];
     bound_arguments := {[ py "database" := VStr db_sqlite_path ]};
     handler := λ args w,
       match args !! py "query" with
       | Some (VStr query) =>
           let allow :=
             match args !! py "allow_change_data" with
             | Some (VBool b) => b
             | _ => false
             end in
           let '(w', r) :=
             execute more_data more_schema
               {| connection := w; mutation_allowed := allow |} query in
           (w', Ok r)
       | _ => (w, Raise type_error)
       end |}.

Definition service_toolkit : Registration C :=
  match register generate_sql_query_tool [] with
  | Added reg => register query_sqlite_tool reg
  | DuplicateToolError tool => DuplicateToolError tool
  end.

Definition toolkit : Registry C := [generate_sql_query_tool; query_sqlite_tool].

(** [ReActAgent(name="assistant", ..., sys_prompt=...)]; the budgets are the
    agent's own and are left open. *)
Definition agent (max_iterations max_parse_retries : nat) : Config :=
  {| agent_name := py "assistant";
     sys_prompt :=
       py "You are a helpful agent that perform SQL queries base on natural language instructions.";
     Loop.max_iterations := max_iterations;
     Loop.max_parse_retries := max_parse_retries |}.

End Toolkit.

End Notebook.

(** ** The first conversation of the notebook, to run the model on *)

Module Scenario.
Import NL2SQL Registry Guard Loop Notebook.
Local Open Scope nat_scope.

Definition count_query : str := py "SELECT COUNT(DISTINCT Singer_ID) FROM singer;".

(** The database: six singers; it records what reaches it. *)
Definition singers : Mock :=
  fresh_mock (λ q, if bool_decide (q = count_query) then Ok [[VInt 6]]
                   else Raise (Fault (py "no such table"))).

(** What the model of the tool completed with in the recorded run (the
    quotes are code point 34). *)
Definition recorded_completion : str :=
  py "To find out how many unique singers are in the database, you would need to count the distinct singer IDs in the "
  ++ [34%N] ++ py "singer" ++ [34%N]
  ++ py " table. The appropriate SQL query for this would be:

```sql
SELECT COUNT(DISTINCT Singer_ID) FROM singer;
```".

Definition recorded_result : str :=
  py "SELECT To find out how many unique singers are in the database, you would need to count the distinct singer IDs in the "
  ++ [34%N] ++ py "singer" ++ [34%N]
  ++ py " table. The appropriate SQL query for this would be: ```sql SELECT COUNT(DISTINCT Singer_ID) FROM singer; ```"
  ++ [LF].

Definition tools (builder : str → result unit) : Registry Mock :=
  toolkit builder (fixed_prompt (py "/* schema */ SELECT"))
    (λ _, fixed_model recorded_completion) [] [].

Definition how_many : Message :=
  {| role := user; msg_name := py "user";
     msg_content := Text (py "How many singers do we have?") |}.

Definition ask_generate : ToolCallRequest :=
  {| tool_name := py "generate_sql_query";
     arguments :=
       {[ py "question" := VStr (py "How many unique singers are we have in the database?") ]} |}.

Definition ask_query (query : str) : ToolCallRequest :=
  {| tool_name := py "query_sqlite";
     arguments :=
       {[ py "allow_change_data" := VBool false; py "query" := VStr query ]} |}.

(** A request that tries to move the tool to another database. *)
Definition ask_elsewhere : ToolCallRequest :=
  {| tool_name := py "generate_sql_query";
     arguments :=
       {[ py "question" := VStr (py "How many singers do we have?");
          py "db_path" := VStr (py "/tmp/other.sqlite") ]} |}.

Definition decisions : list Decision :=
  [ {| thought := py "I will use the generate_sql_query function.";
       speak := py "Let me find this information for you.";
       calls := [ask_generate] |};
    {| thought := py "Now I will use the query_sqlite function.";
       speak := py "I'm now running the query to count the number of unique singers in the database.";
       calls := [ask_query count_query] |};
    {| thought := py "I successfully executed the query.";
       speak := py "We have 6 unique singers in the database.";
       calls := [] |} ].

(** The scripted model of the agent: its n-th answer is the n-th decision,
    written as the number n; the parser reads the number back. *)
Definition answers_so_far (prompt : list Message) : nat :=
  length (List.filter (λ m, bool_decide (role m = assistant)) prompt).

Definition scripted_model (prompt : list Message) : str :=
  [N.of_nat (answers_so_far prompt)].

Definition scripted_parse (raw : str) : Parsed :=
  match raw with
  | [n] =>
      match decisions !! N.to_nat n with
      | Some d => Valid d
      | None => MalformedDecisionError raw
      end
  | _ => MalformedDecisionError raw
  end.

(** A model that asks for the same query in every decision. *)
Definition insisting_parse (raw : str) : Parsed :=
  Valid {| thought := []; speak := []; calls := [ask_query count_query] |}.

(** A model whose first decision asks for nothing. *)
Definition direct_parse (raw : str) : Parsed :=
  Valid {| thought := []; speak := py "We have 6 unique singers in the database.";
           calls := [] |}.

End Scenario.

(** ** More on the layout of a completion, for the statements *)

Module Layout.
Import NL2SQL.

(** The characters that are not whitespace, in their order. *)
Definition nonspace (s : str) : str := List.filter (λ c, negb (isspace c)) s.

(** Whitespace only. *)
Definition all_space (s : str) : bool := forallb isspace s.

(** Words separated by single spaces and nothing else: no whitespace at
    either end, none but single spaces inside. *)
Definition tidy (s : str) : bool :=
  head_nonspace s && single_spaced s && head_nonspace (reverse s).

(** Reading [s] with the word [word] open, as [split_whitespace] does: the
    words closed on the way and the word left open at the end. *)
Fixpoint scan (s word : str) : list str * str :=
  match s with
  | [] => ([], word)
  | c :: s' =>
      if isspace c
      then match word with
           | [] => scan s' []
           | _ => (word :: (scan s' []).1, (scan s' []).2)
           end
      else scan s' (word ++ [c])
  end.

(** Each word followed by a space. *)
Definition spaced (l : list str) : str := concat ((λ w, w ++ [SPACE]) <$> l).

(** [get_response_from_prompt] without its calls of [replace] and [strip]. *)
Definition get_response_plain (prompt : str) (model : Model) : result str :=
  let messages := [ ({[ py "role" := py "assistant"; py "content" := prompt ]} : dict) ] in
  r ← model messages;
  let sql := text r in
  let sql := join (py " ") (split sql) in
  sql ← first (split_sep (py "/*") sql);
  if startswith sql (py "SELECT") then
    mret (sql ++ [LF])
  else if startswith sql (py " ") then
    mret (py "SELECT" ++ sql ++ [LF])
  else
    mret (py "SELECT " ++ sql ++ [LF]).

End Layout.

(** * Theorems *)

(** ** Facts on the string operations *)

Module PyStrFacts.

Lemma isspace_LF : isspace LF = true.
Proof. reflexivity. Qed.

Lemma isspace_SPACE : isspace SPACE = true.
Proof. reflexivity. Qed.

Lemma startswith_prefix (s p : str) : startswith s p = true ↔ p `prefix_of` s.
Proof.
  revert s; induction p as [|a p IH]; intros [|b s]; simpl.
  - split; [intros _; apply prefix_nil | done].
  - split; [intros _; apply prefix_nil | done].
  - split; [done | intros H%prefix_nil_inv; done].
  - rewrite andb_true_iff, N.eqb_eq, IH. split.
    + intros [-> H]. by apply prefix_cons.
    + intros H. split; [by apply prefix_cons_inv_1 in H | by apply prefix_cons_inv_2 in H].
Qed.

Lemma startswith_mono (a b p : str) :
  a `prefix_of` b → startswith a p = true → startswith b p = true.
Proof. rewrite !startswith_prefix. intros Hab Hp. by etrans. Qed.

Lemma contains_infix (s p : str) :
  contains s p = true ↔ ∃ l1 l2, s = l1 ++ p ++ l2.
Proof.
  induction s as [|c s IH]; cbn [contains].
  - rewrite orb_false_r, startswith_prefix. split.
    + intros [k Hk]. exists [], k. done.
    + intros (l1 & l2 & H). symmetry in H.
      apply app_eq_nil in H as [-> [-> ->]%app_eq_nil]. done.
  - rewrite orb_true_iff, startswith_prefix, IH. split.
    + intros [[k Hk] | (l1 & l2 & ->)].
      * exists [], k. done.
      * exists (c :: l1), l2. done.
    + intros (l1 & l2 & H). destruct l1 as [|d l1]; simpl in H.
      * left. exists l2. done.
      * right. injection H as -> ->. eauto.
Qed.

Lemma contains_nil (p : str) : p ≠ [] → contains [] p = false.
Proof. by destruct p. Qed.

(** *** [split]: words only *)

Lemma split_whitespace_words (s acc : str) :
  Forall (λ c, isspace c = false) acc →
  Forall word (split_whitespace s acc).
Proof.
  revert acc; induction s as [|c s IH]; intros acc Hacc; simpl.
  - destruct acc; [constructor|]. constructor; [by split | constructor].
  - destruct (isspace c) eqn:Hc.
    + destruct acc; [by apply IH|].
      constructor; [by split | by apply IH].
    + apply IH. apply Forall_app. split; [done|]. by constructor.
Qed.

Lemma split_words (s : str) : Forall word (split s).
Proof. by apply split_whitespace_words. Qed.

(** *** [join] of words: single-spaced, no whitespace at either end *)

Lemma single_spaced_word_app (w t : str) :
  Forall (λ c, isspace c = false) w →
  single_spaced (w ++ t) = single_spaced t.
Proof.
  induction 1 as [|c w Hc _ IH]; [done|].
  simpl. by rewrite Hc, IH.
Qed.

Lemma head_nonspace_word_app (w t : str) :
  word w → head_nonspace (w ++ t) = true.
Proof.
  intros [Hne Hw]. destruct Hw as [|c w Hc _]; [done|].
  simpl. by rewrite Hc.
Qed.

Lemma join_cons2 (sep w1 w2 : str) (l : list str) :
  join sep (w1 :: w2 :: l) = w1 ++ sep ++ join sep (w2 :: l).
Proof. done. Qed.

Lemma join_words_head (l : list str) :
  Forall word l → head_nonspace (join (py " ") l) = true.
Proof.
  intros Hl. destruct Hl as [|w l Hw Hl]; [done|].
  destruct l as [|w2 l].
  - simpl. rewrite <- (app_nil_r w). by apply head_nonspace_word_app.
  - rewrite join_cons2. by apply head_nonspace_word_app.
Qed.

Lemma join_words_single_spaced (l : list str) :
  Forall word l → single_spaced (join (py " ") l) = true.
Proof.
  induction 1 as [|w l Hw Hl IH]; [done|].
  destruct l as [|w2 l].
  - simpl. rewrite <- (app_nil_r w).
    rewrite single_spaced_word_app; [done | apply Hw].
  - rewrite join_cons2, single_spaced_word_app by apply Hw.
    change (py " " ++ ?t) with (SPACE :: t).
    cbn [single_spaced]. rewrite IH, (join_words_head _ Hl). done.
Qed.

Lemma join_words_last (l : list str) (c : char) :
  Forall word l → last (join (py " ") l) = Some c → isspace c = false.
Proof.
  induction 1 as [|w l Hw Hl IH]; [done|].
  destruct l as [|w2 l].
  - simpl. intros Hlast. destruct Hw as [_ Hw].
    rewrite Forall_forall in Hw. apply Hw.
    destruct w; [done|]. by apply last_Some_elem_of.
  - rewrite join_cons2. intros Hlast. apply IH.
    change (py " " ++ ?t) with ([SPACE] ++ t) in Hlast.
    assert (Hne : join (py " ") (w2 :: l) ≠ []).
    { inversion Hl as [|? ? [Hw2 _] _]; subst. destruct l; simpl; [done|].
      by destruct w2. }
    rewrite !last_app in Hlast.
    destruct (last (join (py " ") (w2 :: l))) eqn:E; [done|].
    apply last_None in E. done.
Qed.

(** *** [strip] has nothing to remove there *)

Lemma lstrip_id (s : str) : head_nonspace s = true → lstrip s = s.
Proof. destruct s as [|c s]; [done|]. simpl. by intros ->%negb_true_iff. Qed.

Lemma rstrip_id (s : str) :
  (∀ c, last s = Some c → isspace c = false) → rstrip s = s.
Proof.
  intros Hlast. unfold rstrip. rewrite lstrip_id; [apply reverse_involutive|].
  destruct (reverse s) as [|c r] eqn:E; [done|]. simpl.
  rewrite (Hlast c); [done|]. by rewrite <- head_reverse, E.
Qed.

Lemma strip_join_split (s : str) :
  strip (join (py " ") (split s)) = join (py " ") (split s).
Proof.
  unfold strip. pose proof (split_words s) as Hw.
  rewrite lstrip_id by by apply join_words_head.
  apply rstrip_id. intros c. by apply join_words_last.
Qed.

(** *** [split(sep)[0]] is the text before the first [sep] *)

Lemma split_sep_aux_first (sep s cur : str) :
  ∃ rest, split_sep_aux sep s cur 0 = (cur ++ before sep s) :: rest.
Proof.
  revert cur; induction s as [|c s IH]; intros cur.
  - exists []. simpl. by rewrite app_nil_r.
  - cbn [split_sep_aux before]. destruct (startswith (c :: s) sep).
    + eexists. by rewrite app_nil_r.
    + destruct (IH (cur ++ [c])) as [rest ->]. exists rest.
      by rewrite <- app_assoc.
Qed.

Lemma first_split_sep (sep s : str) : first (split_sep sep s) = Ok (before sep s).
Proof.
  unfold split_sep. by destruct (split_sep_aux_first sep s []) as [rest ->].
Qed.

Lemma before_prefix (sep s : str) : before sep s `prefix_of` s.
Proof.
  induction s as [|c s IH]; [done|]. cbn [before].
  destruct (startswith (c :: s) sep); [apply prefix_nil | by apply prefix_cons].
Qed.

Lemma before_no_sep (sep s : str) : sep ≠ [] → contains (before sep s) sep = false.
Proof.
  intros Hsep. induction s as [|c s IH]; [by apply contains_nil|].
  cbn [before]. destruct (startswith (c :: s) sep) eqn:E; [by apply contains_nil|].
  cbn [contains]. rewrite IH, orb_false_r.
  apply not_true_is_false. intros H. apply not_true_iff_false in E. apply E.
  eapply startswith_mono; [|done]. apply prefix_cons, before_prefix.
Qed.

Lemma before_from_first (sep s : str) : before sep s ++ from_first sep s = s.
Proof.
  induction s as [|c s IH]; [done|]. cbn [before from_first].
  destruct (startswith (c :: s) sep); [done|]. simpl. by rewrite IH.
Qed.

(** *** The shapes pass to prefixes *)

Lemma head_nonspace_prefix (a b : str) :
  a `prefix_of` b → head_nonspace b = true → head_nonspace a = true.
Proof. intros [k ->]. by destruct a. Qed.

Lemma single_spaced_prefix (a b : str) :
  a `prefix_of` b → single_spaced b = true → single_spaced a = true.
Proof.
  intros [k ->]. induction a as [|c a IH]; [done|].
  cbn [app single_spaced]. rewrite !andb_true_iff. intros [H1 H2].
  split; [|by apply IH].
  destruct (isspace c); [|done]. simpl in *.
  apply andb_true_iff in H1 as [-> H1]. simpl.
  eapply head_nonspace_prefix; [|done]. by exists k.
Qed.

Lemma single_spaced_elem (s : str) (c : char) :
  single_spaced s = true → c ∈ s → isspace c = true → c = SPACE.
Proof.
  induction s as [|d s IH]; [by intros _ ?%elem_of_nil|].
  cbn [single_spaced]. rewrite andb_true_iff. intros [H1 H2] Hin Hc.
  apply elem_of_cons in Hin as [->|Hin]; [|by apply IH].
  rewrite Hc in H1. simpl in H1. apply andb_true_iff in H1 as [H1 _].
  by apply N.eqb_eq.
Qed.

Lemma single_spaced_no_LF (s : str) : single_spaced s = true → LF ∉ s.
Proof.
  intros Hs Hin. by pose proof (single_spaced_elem s LF Hs Hin isspace_LF).
Qed.

(** *** Occurrences of a two-character pattern and a character appended *)

Lemma contains2_snoc (s : str) (x y c : char) :
  c ≠ y → contains s [x; y] = false → contains (s ++ [c]) [x; y] = false.
Proof.
  intros Hc. induction s as [|d s IH]; cbn [app contains startswith].
  - intros _. by rewrite andb_false_r.
  - rewrite !orb_false_iff. intros [H1 H2]. split; [|by apply IH].
    destruct (x =? d); [|done]. simpl in *.
    destruct s as [|e s]; simpl in *; [|done].
    rewrite andb_true_r. apply N.eqb_neq. congruence.
Qed.

End PyStrFacts.




(** ** The tool [generate_sql_query] *)

Module NL2SQLFacts.
Import PyStrFacts NL2SQL.

Lemma normalized_completion_eq (t : str) :
  normalized_completion t = Ok (collapsed t).
Proof.
  unfold normalized_completion, collapsed.
  by rewrite strip_join_split, first_split_sep.
Qed.

Lemma collapsed_head (t : str) : head_nonspace (collapsed t) = true.
Proof.
  eapply head_nonspace_prefix; [apply before_prefix|].
  apply join_words_head, split_words.
Qed.

Lemma collapsed_single_spaced (t : str) : single_spaced (collapsed t) = true.
Proof.
  eapply single_spaced_prefix; [apply before_prefix|].
  apply join_words_single_spaced, split_words.
Qed.

Lemma collapsed_no_comment (t : str) : contains (collapsed t) (py "/*") = false.
Proof. by apply before_no_sep. Qed.

(** The [elif] test of the source is false on every collapsed completion. *)
Lemma collapsed_not_space (t : str) : startswith (collapsed t) (py " ") = false.
Proof.
  pose proof (collapsed_head t) as H. destruct (collapsed t) as [|c s]; [done|].
  cbn [head_nonspace] in H. apply negb_true_iff in H.
  change (startswith (c :: s) (py " ")) with ((SPACE =? c) && true).
  rewrite andb_true_r. apply N.eqb_neq. intros <-. done.
Qed.

Lemma get_response_from_prompt_eq (prompt : str) (model : Model) (t : str) :
  completes model prompt t →
  get_response_from_prompt prompt model = Ok (response_of t).
Proof.
  unfold completes, get_response_from_prompt, response_of, body_of. intros ->.
  cbn [mbind result_bind text].
  rewrite strip_join_split, first_split_sep. cbn [mbind result_bind].
  fold (collapsed t). rewrite collapsed_not_space.
  by destruct (startswith (collapsed t) (py "SELECT")).
Qed.

Section Tool.
Context {PromptGenerator : Type}.
Context (DailSQLPromptGenerator : str → result PromptGenerator).
Context (generate_prompt : PromptGenerator → dict → result dict).

Lemma generate_sql_query_eq (question db_path : str) (model : Model) (t : str) :
  answers DailSQLPromptGenerator generate_prompt question db_path model t →
  generate_sql_query DailSQLPromptGenerator generate_prompt question db_path model
  = Ok (mkServiceResponse SUCCESS (response_of t)).
Proof.
  intros (h & d & p & Hh & Hd & Hp & Ht). unfold generate_sql_query.
  rewrite Hh. cbn [mbind result_bind]. rewrite Hd. cbn [mbind result_bind].
  unfold getitem. rewrite Hp. cbn [mbind result_bind].
  by rewrite (get_response_from_prompt_eq _ _ _ Ht).
Qed.

Lemma generate_sql_query_raises (question db_path : str) (model : Model) (e : exn) :
  builder_fails DailSQLPromptGenerator generate_prompt question db_path e →
  generate_sql_query DailSQLPromptGenerator generate_prompt question db_path model
  = Raise e.
Proof.
  unfold generate_sql_query. intros [-> | (h & -> & Hg)]; [done|].
  cbn [mbind result_bind]. by rewrite Hg.
Qed.

Lemma generate_sql_query_status (question db_path : str) (model : Model)
    (resp : ServiceResponse) :
  generate_sql_query DailSQLPromptGenerator generate_prompt question db_path model
  = Ok resp →
  status resp = SUCCESS.
Proof.
  unfold generate_sql_query.
  destruct (DailSQLPromptGenerator db_path) as [h|]; [|done].
  cbn [mbind result_bind].
  destruct (generate_prompt h _) as [d|]; [|done]. cbn [mbind result_bind].
  destruct (getitem d _) as [p|]; [|done]. cbn [mbind result_bind].
  destruct (get_response_from_prompt p model) as [sql|]; [|done].
  cbn [mbind result_bind mret result_ret]. by intros [= <-].
Qed.

End Tool.

Lemma contains_cons_ne (c x : char) (s p : str) :
  x ≠ c → contains (c :: s) (x :: p) = contains s (x :: p).
Proof.
  intros H. cbn [contains startswith].
  by rewrite (proj2 (N.eqb_neq x c) H).
Qed.

Lemma select_prefix_no_comment (s : str) :
  contains (py "SELECT " ++ s) (py "/*") = contains s (py "/*").
Proof.
  change (py "/*") with [47; 42].
  change (py "SELECT " ++ s) with (83 :: 69 :: 76 :: 69 :: 67 :: 84 :: 32 :: s).
  by rewrite !contains_cons_ne.
Qed.

Lemma select_prefix_single_spaced (s : str) :
  head_nonspace s = true → single_spaced s = true →
  single_spaced (py "SELECT " ++ s) = true.
Proof.
  intros Hh Hs.
  change (py "SELECT " ++ s) with (py "SELECT" ++ SPACE :: s).
  rewrite single_spaced_word_app by (by repeat constructor).
  cbn [single_spaced]. by rewrite Hh, Hs.
Qed.

Lemma body_single_spaced (t : str) : single_spaced (body_of t) = true.
Proof.
  unfold body_of. destruct (startswith _ _).
  - apply collapsed_single_spaced.
  - apply select_prefix_single_spaced;
      [apply collapsed_head | apply collapsed_single_spaced].
Qed.

Lemma body_no_comment (t : str) : contains (body_of t ++ [LF]) (py "/*") = false.
Proof.
  apply (contains2_snoc _ 47 42 LF); [done|].
  unfold body_of. destruct (startswith _ _).
  - apply collapsed_no_comment.
  - rewrite select_prefix_no_comment. apply collapsed_no_comment.
Qed.

Lemma body_starts_select (t : str) : startswith (body_of t) (py "SELECT") = true.
Proof.
  unfold body_of. destruct (startswith (collapsed t) _) eqn:E; [done|].
  apply startswith_prefix. by exists (SPACE :: collapsed t).
Qed.

Lemma body_keeps_collapsed (t : str) : collapsed t `suffix_of` body_of t.
Proof.
  unfold body_of. destruct (startswith _ _); [done|]. by eexists.
Qed.

(** C9.  The three-way branch of [get_response_from_prompt] computes the
    two-way function (the collapsed completion plus a newline when it starts
    with SELECT, and SELECT, a space, the collapsed completion and a newline
    otherwise), for every prompt and every model; and the test
    [sql.startswith(" ")] of its [elif] is false on the collapsed form of
    every completion, so that branch is never taken. *)
Theorem three_way_branch_is_two_way (prompt : str) (model : Model) :
  get_response_from_prompt prompt model = two_way_response prompt model
  ∧ ∀ completion : str,
      ∃ sql, normalized_completion completion = Ok sql
             ∧ startswith sql (py " ") = false.
Proof.
  split.
  - unfold get_response_from_prompt, two_way_response.
    destruct (model _) as [r|e]; [|done]. cbn [mbind result_bind].
    rewrite normalized_completion_eq, strip_join_split, first_split_sep.
    cbn [mbind result_bind]. fold (collapsed (text r)).
    by rewrite collapsed_not_space.
  - intros t. exists (collapsed t). split.
    + apply normalized_completion_eq.
    + apply collapsed_not_space.
Qed.

Section Claims.
Context {PromptGenerator : Type}.
Context (DailSQLPromptGenerator : str → result PromptGenerator).
Context (generate_prompt : PromptGenerator → dict → result dict).

Local Abbreviation tool := (generate_sql_query DailSQLPromptGenerator generate_prompt).
Local Abbreviation answered := (answers DailSQLPromptGenerator generate_prompt).

(** C8.  Whatever the model completes with, the payload of
    [generate_sql_query] is a body followed by one newline; the body holds
    no newline, its whitespace is single spaces between words (at most one
    more at its end), and the payload holds no ["/*"]: the body is the
    collapsed completion up to its first ["/*"], after SELECT and a space
    when it does not start with SELECT. *)
Theorem payload_shape (question db_path : str) (model : Model) (completion : str) :
  answered question db_path model completion →
  ∃ body,
    tool question db_path model = Ok (mkServiceResponse SUCCESS (body ++ [LF]))
    ∧ (LF ∉ body)
    ∧ single_spaced body = true
    ∧ contains (body ++ [LF]) (py "/*") = false
    ∧ (¬ ∃ l1 l2, body ++ [LF] = l1 ++ py "/*" ++ l2)
    ∧ (body = collapsed completion ∨ body = py "SELECT " ++ collapsed completion).
Proof.
  intros H. exists (body_of completion). split; [|split; [|split; [|split; [|split]]]].
  - by apply generate_sql_query_eq.
  - apply single_spaced_no_LF, body_single_spaced.
  - apply body_single_spaced.
  - apply body_no_comment.
  - rewrite <- contains_infix, body_no_comment. done.
  - unfold body_of. destruct (startswith _ _); auto.
Qed.

(** C10.  When the prompt builder and the model return normally, with any
    completion at all, [generate_sql_query] returns a response of status
    SUCCESS, with the payload ["SELECT \n"] for the empty completion; and no
    response it returns, for any collaborators and arguments, has another
    status. *)
Theorem generate_sql_query_always_success
    (question db_path : str) (model : Model) (completion : str) :
  answered question db_path model completion →
  (∃ payload,
      tool question db_path model = Ok (mkServiceResponse SUCCESS payload)
      ∧ (completion = [] → payload = py "SELECT " ++ [LF]))
  ∧ (∀ question' db_path' model' resp,
        tool question' db_path' model' = Ok resp → status resp = SUCCESS).
Proof.
  intros H. split.
  - exists (response_of completion). split; [by apply generate_sql_query_eq|].
    by intros ->.
  - intros q' d' m' resp. apply generate_sql_query_status.
Qed.

(** C2.  When the model completes with the bare query
    [SELECT COUNT(DISTINCT Singer_ID) FROM singer;], the tool returns that
    query followed by one newline, otherwise unchanged, with status
    SUCCESS. *)
Theorem singer_count_query (question db_path : str) (model : Model) :
  answered question db_path model
    (py "SELECT COUNT(DISTINCT Singer_ID) FROM singer;") →
  tool question db_path model
  = Ok (mkServiceResponse SUCCESS
          (py "SELECT COUNT(DISTINCT Singer_ID) FROM singer;" ++ [LF])).
Proof.
  intros H. rewrite (generate_sql_query_eq _ _ _ _ _ _ H).
  do 2 f_equal.
Qed.

(** C1, as amended.  The tool strips nothing in front of a SELECT keyword:
    its payload is a body and a newline, where the body is the collapsed
    completion itself when that starts with SELECT, and SELECT, a space and
    the collapsed completion otherwise; so the body starts with SELECT and
    ends with the whole collapsed completion. *)
Theorem response_keeps_completion
    (question db_path : str) (model : Model) (completion : str) :
  answered question db_path model completion →
  ∃ body,
    tool question db_path model = Ok (mkServiceResponse SUCCESS (body ++ [LF]))
    ∧ body = (if startswith (collapsed completion) (py "SELECT")
              then collapsed completion
              else py "SELECT " ++ collapsed completion)
    ∧ startswith body (py "SELECT") = true
    ∧ collapsed completion `suffix_of` body.
Proof.
  intros H. exists (body_of completion). split; [|split; [|split]].
  - by apply generate_sql_query_eq.
  - done.
  - apply body_starts_select.
  - apply body_keeps_collapsed.
Qed.

(** C3, as amended.  A failure of the prompt builder, in its constructor or
    in [generate_prompt], leaves [generate_sql_query] as the exception
    raised: the tool itself returns no response then.  It is the registry
    that makes a FAILURE of it, carrying the exception, when it captures the
    outcome of the handler (step 4 of [dispatch]). *)
Theorem builder_failure_propagates
    (question db_path : str) (model : Model) (e : exn) :
  builder_fails DailSQLPromptGenerator generate_prompt question db_path e →
  tool question db_path model = Raise e
  ∧ Registry.capture (Registry.of_response <$> tool question db_path model)
    = Registry.failure (Registry.HandlerFault e)
  ∧ Registry.er_status
      (Registry.capture (Registry.of_response <$> tool question db_path model))
    = FAILURE.
Proof.
  intros Hb.
  rewrite (generate_sql_query_raises _ _ _ _ _ _ Hb). done.
Qed.

End Claims.

Lemma payload_shape_witness :
  let completion := py "  The answer
is   /* a comment */ SELECT 1" in
  ∃ body,
    generate_sql_query fixed_builder (fixed_prompt (py "p")) (py "q") (py "db")
      (fixed_model completion)
    = Ok (mkServiceResponse SUCCESS (body ++ [LF]))
    ∧ (LF ∉ body)
    ∧ single_spaced body = true
    ∧ contains (body ++ [LF]) (py "/*") = false
    ∧ (¬ ∃ l1 l2, body ++ [LF] = l1 ++ py "/*" ++ l2)
    ∧ (body = collapsed completion ∨ body = py "SELECT " ++ collapsed completion).
Proof.
  intros completion. apply payload_shape.
  exists tt, {[ py "prompt" := py "p" ]}, (py "p").
  repeat split; reflexivity.
Defined.

Lemma generate_sql_query_always_success_witness :
  (∃ payload,
      generate_sql_query fixed_builder (fixed_prompt (py "p")) (py "q") (py "db")
        (fixed_model [])
      = Ok (mkServiceResponse SUCCESS payload)
      ∧ (([] : list N) = [] → payload = py "SELECT " ++ [LF]))
  ∧ (∀ question' db_path' model' resp,
        generate_sql_query fixed_builder (fixed_prompt (py "p")) question' db_path' model'
        = Ok resp → status resp = SUCCESS).
Proof.
  apply (generate_sql_query_always_success fixed_builder (fixed_prompt (py "p"))
           (py "q") (py "db") (fixed_model []) []).
  exists tt, {[ py "prompt" := py "p" ]}, (py "p").
  repeat split; reflexivity.
Defined.

Lemma singer_count_query_witness :
  generate_sql_query fixed_builder (fixed_prompt (py "p"))
    (py "How many singers do we have?") (py "./database/concert_singer/concert_singer.sqlite")
    (fixed_model (py "SELECT COUNT(DISTINCT Singer_ID) FROM singer;"))
  = Ok (mkServiceResponse SUCCESS
          (py "SELECT COUNT(DISTINCT Singer_ID) FROM singer;" ++ [LF])).
Proof.
  apply singer_count_query.
  exists tt, {[ py "prompt" := py "p" ]}, (py "p").
  repeat split; reflexivity.
Defined.

Lemma response_keeps_completion_witness :
  let completion := py "x SELECT 1" in
  ∃ body,
    generate_sql_query fixed_builder (fixed_prompt (py "p")) (py "q") (py "db")
      (fixed_model completion)
    = Ok (mkServiceResponse SUCCESS (body ++ [LF]))
    ∧ body = (if startswith (collapsed completion) (py "SELECT")
              then collapsed completion
              else py "SELECT " ++ collapsed completion)
    ∧ startswith body (py "SELECT") = true
    ∧ collapsed completion `suffix_of` body.
Proof.
  intros completion. apply response_keeps_completion.
  exists tt, {[ py "prompt" := py "p" ]}, (py "p").
  repeat split; reflexivity.
Defined.

Lemma builder_failure_propagates_witness :
  let returned :=
    generate_sql_query unreadable_schema (fixed_prompt (py "p")) (py "q") (py "db")
      (fixed_model (py "SELECT 1")) in
  returned = Raise (Fault (py "unable to open database file"))
  ∧ Registry.capture (Registry.of_response <$> returned)
    = Registry.failure
        (Registry.HandlerFault (Fault (py "unable to open database file")))
  ∧ Registry.er_status (Registry.capture (Registry.of_response <$> returned))
    = FAILURE.
Proof.
  apply builder_failure_propagates. left. reflexivity.
Defined.

(** C1 fails as stated.  For the completion [x SELECT 1] the tool returns
    [SELECT x SELECT 1] and a newline: not the completion from its first
    SELECT onward ([SELECT 1]), nor from its first space onward, with or
    without the newline; what it returns is longer than the completion, so
    no stripping of the completion gives it. *)
Lemma first_select_counterexample :
  let completion := py "x SELECT 1" in
  let returned :=
    generate_sql_query fixed_builder (fixed_prompt (py "p")) (py "q") (py "db")
      (fixed_model completion) in
  answers fixed_builder (fixed_prompt (py "p")) (py "q") (py "db")
    (fixed_model completion) completion
  ∧ returned = Ok (mkServiceResponse SUCCESS (py "SELECT x SELECT 1" ++ [LF]))
  ∧ from_first (py "SELECT") completion = py "SELECT 1"
  ∧ from_first (py " ") completion = py " SELECT 1"
  ∧ returned ≠ Ok (mkServiceResponse SUCCESS (from_first (py "SELECT") completion))
  ∧ returned ≠ Ok (mkServiceResponse SUCCESS (from_first (py "SELECT") completion ++ [LF]))
  ∧ returned ≠ Ok (mkServiceResponse SUCCESS (from_first (py " ") completion))
  ∧ returned ≠ Ok (mkServiceResponse SUCCESS (from_first (py " ") completion ++ [LF]))
  ∧ (length completion < length (py "SELECT x SELECT 1"))%nat.
Proof.
  intros completion returned.
  split; [exists tt, {[ py "prompt" := py "p" ]}, (py "p"); repeat split; reflexivity|].
  repeat split; try reflexivity; try (vm_compute; congruence).
  vm_compute. lia.
Qed.

(** C3 fails as stated.  With a prompt builder that cannot read the schema,
    [generate_sql_query] raises: it returns no response, of status FAILURE
    or other. *)
Lemma unreadable_schema_counterexample :
  let returned :=
    generate_sql_query unreadable_schema (fixed_prompt (py "p")) (py "q") (py "db")
      (fixed_model (py "SELECT 1")) in
  builder_fails unreadable_schema (fixed_prompt (py "p")) (py "q") (py "db")
    (Fault (py "unable to open database file"))
  ∧ raises returned = true
  ∧ ¬ ∃ resp, returned = Ok resp ∧ status resp = FAILURE.
Proof.
  intros returned. split; [by left|]. split; [reflexivity|].
  intros (resp & H & _). discriminate H.
Qed.

End NL2SQLFacts.

(** ** The Tool Registry *)

Module RegistryFacts.
Import NL2SQL Registry.

Section WithWorld.
Context {W : Type}.
Implicit Types (reg : Registry W) (d : ToolDescriptor W) (req : ToolCallRequest).

Lemma lookup_tool_Some reg n d :
  lookup_tool reg n = Some d → d ∈ reg ∧ name d = n.
Proof.
  unfold lookup_tool. intros Hf. apply List.find_some in Hf as [Hin Hn].
  split; [by apply list_elem_of_In | by apply bool_decide_eq_true in Hn].
Qed.

Lemma resolve_inr reg req d args :
  resolve reg req = inr (d, args) →
  lookup_tool reg (tool_name req) = Some d
  ∧ validate d (arguments req) = None
  ∧ args = bound_arguments d ∪ arguments req.
Proof.
  unfold resolve. destruct (lookup_tool reg (tool_name req)) as [d'|]; [|done].
  destruct (validate d' (arguments req)) eqn:E; [done|].
  by intros [= <- <-].
Qed.

Lemma merged_bound (bound supplied : gmap (list N) Value) k v :
  bound !! k = Some v → (bound ∪ supplied) !! k = Some v.
Proof. intros Hb. by apply lookup_union_Some_l. Qed.

Lemma describe_hides_bound d p :
  p ∈ s_parameters (describe d) → bound_arguments d !! pname p = None.
Proof.
  unfold describe; simpl. rewrite list_elem_of_In, List.filter_In.
  intros [_ Hb]. by apply bool_decide_eq_true in Hb.
Qed.

Lemma describe_keeps_unbound d p :
  p ∈ params d → bound_arguments d !! pname p = None →
  p ∈ s_parameters (describe d).
Proof.
  intros Hin Hb. unfold describe; simpl.
  rewrite list_elem_of_In, List.filter_In. split; [by apply list_elem_of_In|].
  by apply bool_decide_eq_true.
Qed.

(** C5.  When [dispatch] reaches a handler, which is when [resolve] gives
    the descriptor and the arguments of the call, the handler of the
    descriptor named by the request is invoked on arguments that hold every
    bound argument at its bound value, whatever the model supplied: two
    requests to the same tool, with any argument mappings, give the handler
    the same value at every bound name.  And no parameter of a schema summary
    shown to the model is a bound one. *)
Theorem bound_arguments_protected reg req d args (w : W) :
  resolve reg req = inr (d, args) →
  dispatch reg req w = (let '(w', r) := handler d args w in (w', capture r))
  ∧ name d = tool_name req
  ∧ (∀ k v, bound_arguments d !! k = Some v → args !! k = Some v)
  ∧ (∀ req' d' args',
        tool_name req' = tool_name req →
        resolve reg req' = inr (d', args') →
        d' = d ∧ ∀ k, is_Some (bound_arguments d !! k) → args' !! k = args !! k)
  ∧ (∀ summary p,
        summary ∈ describe_all reg → p ∈ s_parameters summary →
        ∃ d0, d0 ∈ reg ∧ summary = describe d0
              ∧ bound_arguments d0 !! pname p = None).
Proof.
  intros Hres. pose proof (resolve_inr _ _ _ _ Hres) as (Hd & Hv & ->).
  split; [|split; [|split; [|split]]].
  - unfold dispatch. by rewrite Hres.
  - by apply lookup_tool_Some in Hd as [_ ?].
  - intros k v. apply merged_bound.
  - intros req' d' args' Hn Hres'.
    apply resolve_inr in Hres' as (Hd' & _ & ->).
    rewrite Hn, Hd in Hd'. injection Hd' as <-. split; [done|].
    intros k [v Hk]. by rewrite !(merged_bound _ _ k v Hk).
  - intros summary p Hs Hp. unfold describe_all in Hs.
    apply list_elem_of_fmap in Hs as (d0 & -> & Hin).
    exists d0. split; [done|]. split; [done|]. by apply describe_hides_bound.
Qed.

(** A request for a tool that is not registered is a FAILURE, and no
    handler runs. *)
Lemma dispatch_unknown_tool reg req (w : W) :
  lookup_tool reg (tool_name req) = None →
  dispatch reg req w = (w, failure (UnknownToolError (tool_name req))).
Proof. intros Hn. unfold dispatch, resolve. by rewrite Hn. Qed.

End WithWorld.

End RegistryFacts.

(** ** The SQL Execution Guard *)

Module GuardFacts.
Import NL2SQL Registry Guard.

Section Execute.
Context {C : Type} `{Connection C}.
Context (more_data more_schema : list str).

(** The refusal comes before anything is asked of the connection: the
    connection is handed back as it was. *)
Lemma execute_refuses (handle : Handle C) (query : str) :
  is_mutating (classify more_data more_schema query) = true →
  mutation_allowed handle = false →
  execute more_data more_schema handle query
  = (connection handle, failure (MutationNotAllowedError query)).
Proof. unfold execute. by intros -> ->. Qed.

End Execute.

Lemma named_keywords_mutating (more_data more_schema : list str) (query : str) :
  leading_keyword query ∈ data_keywords ++ schema_keywords →
  is_mutating (classify more_data more_schema query) = true.
Proof.
  intros Hk. unfold classify.
  apply elem_of_app in Hk as [Hk|Hk].
  - rewrite bool_decide_eq_true_2; [done|]. apply elem_of_app. by left.
  - case_bool_decide; [done|].
    rewrite bool_decide_eq_true_2; [done|]. apply elem_of_app. by left.
Qed.

(** C4.  A statement classified as mutating, under a handle whose
    permission flag is false, is refused with [MutationNotAllowedError], a
    policy violation, and nothing reaches the connection: a connection that
    records its calls holds the same statements and commits after as before,
    and none at all when it was fresh. *)
Theorem mutation_guard (more_data more_schema : list str)
    (m : Mock) (allowed : bool) (query : str) :
  is_mutating (classify more_data more_schema query) = true →
  allowed = false →
  ∃ m' r,
    execute more_data more_schema
      {| connection := m; mutation_allowed := allowed |} query = (m', r)
    ∧ er_status r = FAILURE
    ∧ error_detail r = Some (MutationNotAllowedError query)
    ∧ error_class (MutationNotAllowedError query) = PolicyViolationError
    ∧ m' = m
    ∧ call_count m' = call_count m
    ∧ (m = fresh_mock (answer m) → call_count m' = 0%nat).
Proof.
  intros Hq ->. exists m, (failure (MutationNotAllowedError query)).
  split; [by apply execute_refuses|].
  repeat split; try done. by intros ->.
Qed.

(** The record of calls is a real one: what the guard lets through
    reaches the connection once. *)
Lemma execute_reaches_connection (more_data more_schema : list str)
    (m : Mock) (allowed : bool) (query : str) :
  is_mutating (classify more_data more_schema query) && negb allowed = false →
  statements
    (execute more_data more_schema
       {| connection := m; mutation_allowed := allowed |} query).1
  = statements m ++ [query].
Proof.
  unfold execute. cbn [mutation_allowed connection]. intros ->.
  cbn [conn_execute Mock_connection].
  destruct (answer m query); [|done].
  by destruct (is_mutating _).
Qed.

End GuardFacts.

(** ** The reasoning-action loop *)

Module LoopFacts.
Import NL2SQL Registry Loop.
Local Open Scope nat_scope.

Section Orchestrator.
Context {W : Type}.
Context (cfg : Config).
Context (model : list Message → str).
Context (parse : str → Parsed).
Context (registry : Registry W).

Local Abbreviation step := (step cfg model parse registry).
Local Abbreviation run := (run cfg model parse registry).
Local Abbreviation remaining := (remaining cfg).

Local Abbreviation in_budget := (in_budget cfg).
Local Abbreviation actions_left := (actions_left cfg).
Local Abbreviation reasonings_left := (reasonings_left cfg).

Lemma step_cases (s : LoopState) (w : W) :
  match s with
  | REASONING conv i r =>
      (∃ raw, (step s w).1 = REASONING (conv ++ [corrective raw]) i (S r)
              ∧ S r < max_parse_retries cfg)
      ∨ (∃ conv' d, (step s w).1 = ACTION conv' i r (calls d))
      ∨ outcome (step s w).1 ≠ None
  | ACTION conv i r batch =>
      (∃ conv', (step s w).1 = REASONING conv' (S i) r ∧ i < max_iterations cfg)
      ∨ outcome (step s w).1 ≠ None
  | TERMINATED _ _ | FAILED _ _ => step s w = (s, w)
  end.
Proof.
  destruct s as [conv i r|conv i r batch| |]; cbn [Loop.step]; [| |done|done].
  - destruct (parse _) as [d|raw].
    + destruct (calls d) eqn:E; [by right; right|].
      right; left. exists (conv ++ [decided cfg d]), d. by rewrite E.
    + destruct (S r <? max_parse_retries cfg) eqn:E; [|by right; right].
      left. exists raw. split; [done|]. by apply Nat.ltb_lt.
  - destruct (act registry batch 1 conv w) as [conv' w'].
    destruct (i <? max_iterations cfg) eqn:E; [|by right].
    left. exists conv'. split; [done|]. by apply Nat.ltb_lt.
Qed.

Lemma outcome_phase (s : LoopState) : outcome s ≠ None ↔ phase_of s = None.
Proof. by destruct s. Qed.

Lemma remaining_terminal (s : LoopState) : phase_of s = None → remaining s = 0.
Proof. by destruct s. Qed.

(** Every step of a state that is not terminal consumes the measure. *)
Lemma step_remaining (s : LoopState) (w : W) :
  is_Some (phase_of s) → remaining (step s w).1 < remaining s.
Proof.
  intros [ph Hph]. pose proof (step_cases s w) as Hc.
  destruct s as [conv i r|conv i r batch| |]; [| |done|done].
  - destruct Hc as [(raw & -> & Hr)|[(conv' & d & ->)|Ho]]; cbn [Loop.remaining].
    + lia.
    + lia.
    + apply outcome_phase, remaining_terminal in Ho. rewrite Ho. lia.
  - destruct Hc as [(conv' & -> & Hi)|Ho]; cbn [Loop.remaining].
    + lia.
    + apply outcome_phase, remaining_terminal in Ho. rewrite Ho. lia.
Qed.

Lemma step_in_budget (s : LoopState) (w : W) :
  in_budget s → in_budget (step s w).1.
Proof.
  intros Hs. pose proof (step_cases s w) as Hc. unfold in_budget in *.
  destruct s as [conv i r|conv i r batch| |]; cbn [phase_of] in Hs.
  - destruct Hc as [(raw & -> & Hr)|[(conv' & d & ->)|Ho]]; [done|done|].
    apply outcome_phase in Ho. by rewrite Ho.
  - destruct Hc as [(conv' & -> & Hi)|Ho]; [cbn [phase_of]; lia|].
    apply outcome_phase in Ho. by rewrite Ho.
  - by rewrite Hc.
  - by rewrite Hc.
Qed.

Lemma left_terminal (s : LoopState) :
  phase_of s = None → actions_left s = 0 ∧ reasonings_left s = 0.
Proof. by destruct s. Qed.

Lemma step_phases_left (s : LoopState) (w : W) (ph : nat * Phase) :
  in_budget s → phase_of s = Some ph →
  actions_left (step s w).1 + count_phase Action [ph] ≤ actions_left s
  ∧ reasonings_left (step s w).1 + count_phase Reasoning [ph] ≤ reasonings_left s.
Proof.
  intros Hs Hph. pose proof (step_cases s w) as Hc. unfold Loop.in_budget in Hs.
  rewrite Hph in Hs.
  destruct s as [conv i r|conv i r batch| |]; cbn [phase_of] in Hph; [| |done|done];
    injection Hph as <-; cbn [fst] in Hs.
  - destruct Hc as [(raw & -> & Hr)|[(conv' & d & ->)|Ho]];
      cbn [Loop.actions_left Loop.reasonings_left]; [vm_compute count_phase; lia..|].
    apply outcome_phase, left_terminal in Ho as [-> ->].
    cbn [Loop.actions_left Loop.reasonings_left]. vm_compute count_phase. lia.
  - destruct Hc as [(conv' & -> & Hi)|Ho];
      cbn [Loop.actions_left Loop.reasonings_left]; [vm_compute count_phase; lia|].
    apply outcome_phase, left_terminal in Ho as [-> ->].
    cbn [Loop.actions_left Loop.reasonings_left]. vm_compute count_phase. lia.
Qed.

Lemma count_phase_cons (p : Phase) (ph : nat * Phase) (trace : list (nat * Phase)) :
  count_phase p (ph :: trace) = count_phase p [ph] + count_phase p trace.
Proof. unfold count_phase. cbn [List.filter]. by destruct (bool_decide _). Qed.

Lemma remaining_pos (s : LoopState) : is_Some (phase_of s) → 0 < remaining s.
Proof. intros [ph Hph]. destruct s; try done; cbn [Loop.remaining]; lia. Qed.

(** The loop on [fuel] steps: every phase run is of an iteration within the
    budget, the phases run are bounded, and with fuel for the measure the
    state reached is terminal. *)
Lemma run_bounds (fuel : nat) (s : LoopState) (w : W) :
  in_budget s →
  Forall (λ e, 1 ≤ e.1 ≤ max_iterations cfg) (run fuel s w).1.1
  ∧ count_phase Action (run fuel s w).1.1 ≤ actions_left s
  ∧ count_phase Reasoning (run fuel s w).1.1 ≤ reasonings_left s
  ∧ length (run fuel s w).1.1 ≤ fuel
  ∧ (remaining s ≤ fuel → phase_of (run fuel s w).1.2 = None).
Proof.
  revert s w; induction fuel as [|fuel IH]; intros s w Hs.
  - cbn [Loop.run fst snd]. repeat split; [constructor|cbn; lia..|].
    intros Hr. destruct (phase_of s) eqn:E; [|done].
    assert (0 < remaining s) by (apply remaining_pos; eauto). lia.
  - cbn [Loop.run]. destruct (phase_of s) as [ph|] eqn:Hph.
    + pose proof (step_in_budget s w Hs) as Hs'.
      pose proof (step_remaining s w (ltac:(eauto))) as Hr'.
      pose proof (step_phases_left s w ph Hs Hph) as [Ha Hre].
      destruct (step s w) as [s' w'] eqn:Hstep. cbn [fst] in *.
      specialize (IH s' w' Hs') as (IH1 & IH2 & IH3 & IH4 & IH5).
      destruct (run fuel s' w') as [[trace final] w''] eqn:Hrun. cbn [fst snd] in *.
      split; [|split; [|split; [|split]]].
      * constructor; [|done]. unfold Loop.in_budget in Hs. rewrite Hph in Hs.
        by destruct ph.
      * rewrite count_phase_cons. lia.
      * rewrite count_phase_cons. lia.
      * cbn [length]. lia.
      * intros Hr. apply IH5. lia.
    + cbn [fst snd]. repeat split; [constructor|cbn; lia..|done].
Qed.

Lemma run_terminal (fuel : nat) (s : LoopState) (w : W) :
  phase_of s = None → run fuel s w = ([], s, w).
Proof. intros Hs. destruct fuel; [done|]. cbn [Loop.run]. by rewrite Hs. Qed.

Lemma run_step (fuel : nat) (s : LoopState) (w : W) (ph : nat * Phase) :
  phase_of s = Some ph →
  run (S fuel) s w
  = (ph :: (run fuel (step s w).1 (step s w).2).1.1,
     (run fuel (step s w).1 (step s w).2).1.2,
     (run fuel (step s w).1 (step s w).2).2).
Proof.
  intros Hs. cbn [Loop.run]. rewrite Hs. destruct (step s w) as [s' w'].
  cbn [fst snd]. by destruct (run fuel s' w') as [[? ?] ?].
Qed.

Lemma start_in_budget (conv : list Message) (user_message : Message) :
  in_budget (start cfg conv user_message).
Proof.
  unfold start, Loop.in_budget.
  destruct (1 <=? max_iterations cfg) eqn:E; [|done].
  apply Nat.leb_le in E. cbn [phase_of]. lia.
Qed.

Lemma start_remaining (conv : list Message) (user_message : Message) :
  remaining (start cfg conv user_message) ≤ turn_fuel cfg.
Proof.
  unfold start, turn_fuel.
  destruct (1 <=? max_iterations cfg) eqn:E; cbn [Loop.remaining]; [|lia].
  apply Nat.leb_le in E. lia.
Qed.

Lemma start_phases_left (conv : list Message) (user_message : Message) :
  actions_left (start cfg conv user_message) ≤ max_iterations cfg
  ∧ reasonings_left (start cfg conv user_message)
    ≤ max_iterations cfg + max_parse_retries cfg.
Proof.
  unfold start.
  destruct (1 <=? max_iterations cfg) eqn:E;
    cbn [Loop.actions_left Loop.reasonings_left]; lia.
Qed.

(** A model that asks for a tool in every decision uses the budget up. *)
Lemma run_always_calling (k : nat) :
  (∀ c, ∃ d, parse (model (assemble cfg registry c)) = Valid d ∧ calls d ≠ []) →
  ∀ (fuel i r : nat) (conv : list Message) (w : W),
    i + k = max_iterations cfg → 2 * k + 2 ≤ fuel →
    ∃ conv',
      (run fuel (REASONING conv i r) w).1.2
      = FAILED conv' (BudgetExhaustedError Iterations)
      ∧ count_phase Action (run fuel (REASONING conv i r) w).1.1 = S k.
Proof.
  intros Hm. induction k as [|k IH]; intros fuel i r conv w Hi Hf.
  - destruct fuel as [|[|fuel]]; [lia..|].
    rewrite (run_step _ _ _ (i, Reasoning)) by done. cbn [fst snd Loop.step].
    destruct (Hm conv) as (d & -> & Hd). destruct (calls d) as [|c batch] eqn:E; [done|].
    cbn [fst snd]. rewrite (run_step _ _ _ (i, Action)) by done.
    cbn [fst snd Loop.step]. destruct (act registry _ 1 _ w) as [conv' w'].
    rewrite (proj2 (Nat.ltb_ge i (max_iterations cfg))) by lia.
    cbn [fst snd]. rewrite run_terminal by done. by exists conv'.
  - destruct fuel as [|[|fuel]]; [lia..|].
    rewrite (run_step _ _ _ (i, Reasoning)) by done. cbn [fst snd Loop.step].
    destruct (Hm conv) as (d & -> & Hd). destruct (calls d) as [|c batch] eqn:E; [done|].
    cbn [fst snd]. rewrite (run_step _ _ _ (i, Action)) by done.
    cbn [fst snd Loop.step]. destruct (act registry _ 1 _ w) as [conv' w'].
    rewrite (proj2 (Nat.ltb_lt i (max_iterations cfg))) by lia.
    cbn [fst snd].
    destruct (IH fuel (S i) r conv' w') as (conv'' & Hfin & Hcount); [lia..|].
    exists conv''. split; [done|].
    rewrite (count_phase_cons Action (i, Reasoning)).
    rewrite (count_phase_cons Action (i, Action)), Hcount. done.
Qed.

(** C7.  Whatever the model answers and the parser makes of it, a turn
    reaches a terminal state: TERMINATED, or FAILED with the indication that
    a budget is exhausted.  Every phase it runs belongs to an iteration
    between 1 and [max_iterations]; it runs at most [max_iterations] ACTION
    phases and at most [max_iterations + max_parse_retries] REASONING
    phases.  With a model that asks for a tool in every decision the turn
    ends FAILED on the iteration budget, after [max_iterations] ACTION
    phases. *)
Theorem loop_bounded (conv : list Message) (user_message : Message) (w : W) :
  let res := turn cfg model parse registry conv user_message w in
  ((∃ conv' final, res.1.2 = TERMINATED conv' final)
   ∨ (∃ conv' b, res.1.2 = FAILED conv' (BudgetExhaustedError b)))
  ∧ is_Some (outcome res.1.2)
  ∧ Forall (λ e, 1 ≤ e.1 ≤ max_iterations cfg) res.1.1
  ∧ count_phase Action res.1.1 ≤ max_iterations cfg
  ∧ count_phase Reasoning res.1.1 ≤ max_iterations cfg + max_parse_retries cfg
  ∧ length res.1.1 ≤ 2 * max_iterations cfg + max_parse_retries cfg
  ∧ ((∀ c, ∃ d, parse (model (assemble cfg registry c)) = Valid d ∧ calls d ≠ []) →
     (∃ conv', res.1.2 = FAILED conv' (BudgetExhaustedError Iterations))
     ∧ count_phase Action res.1.1 = max_iterations cfg).
Proof.
  intros res. subst res. unfold turn.
  pose proof (run_bounds (turn_fuel cfg) _ w (start_in_budget conv user_message))
    as (H1 & H2 & H3 & H4 & H5).
  pose proof (start_phases_left conv user_message) as [Ha Hr].
  specialize (H5 (start_remaining conv user_message)).
  split; [|split; [|split; [|split; [|split; [|split]]]]].
  - destruct (run _ _ w).1.2 as [| |conv' final|conv' [b]]; [done|done|left|right]; eauto.
  - by destruct (run _ _ w).1.2.
  - done.
  - lia.
  - lia.
  - unfold turn_fuel in *. lia.
  - intros Hm. unfold start, turn_fuel.
    destruct (1 <=? max_iterations cfg) eqn:E.
    + apply Nat.leb_le in E.
      destruct (run_always_calling (max_iterations cfg - 1) Hm
                  (2 * max_iterations cfg + max_parse_retries cfg) 1 0
                  (conv ++ [user_message]) w) as (conv' & Hfin & Hcount); [lia..|].
      rewrite Hfin, Hcount. split; [by exists conv' | lia].
    + apply Nat.leb_gt in E. rewrite run_terminal by done. cbn [fst snd].
      split; [by eexists|]. vm_compute count_phase. lia.
Qed.

(** C6.  When the first decision of a turn is valid and asks for no tool,
    the turn is one REASONING phase and no ACTION phase: it ends TERMINATED,
    with the decision's [speak] as the final assistant message, appended to
    the conversation, and the world as it was. *)
Theorem empty_calls_terminate
    (conv : list Message) (user_message : Message) (w : W) (d : Decision) :
  0 < max_iterations cfg →
  parse (model (assemble cfg registry (conv ++ [user_message]))) = Valid d →
  calls d = [] →
  turn cfg model parse registry conv user_message w
  = ([(1, Reasoning)],
     TERMINATED (conv ++ [user_message] ++ [says cfg (speak d)]) (says cfg (speak d)),
     w)
  ∧ count_phase Reasoning (turn cfg model parse registry conv user_message w).1.1 = 1
  ∧ count_phase Action (turn cfg model parse registry conv user_message w).1.1 = 0
  ∧ role (says cfg (speak d)) = assistant
  ∧ msg_content (says cfg (speak d)) = Text (speak d).
Proof.
  intros Hmax Hparse Hcalls.
  assert (Hturn : turn cfg model parse registry conv user_message w
                  = ([(1, Reasoning)],
                     TERMINATED (conv ++ [user_message] ++ [says cfg (speak d)])
                       (says cfg (speak d)), w)).
  { unfold turn, start, turn_fuel.
    rewrite (proj2 (Nat.leb_le 1 (max_iterations cfg))) by lia.
    destruct (2 * max_iterations cfg + max_parse_retries cfg) as [|fuel] eqn:E; [lia|].
    rewrite (run_step _ _ _ (1, Reasoning)) by done.
    cbn [Loop.step]. rewrite Hparse, Hcalls. cbn [fst snd].
    rewrite run_terminal by done. cbn [fst snd]. by rewrite <- app_assoc. }
  rewrite Hturn. done.
Qed.

End Orchestrator.

End LoopFacts.

(** ** The notebook's toolkit and its first conversation *)

Module NotebookFacts.
Import NL2SQL Registry Guard Loop Notebook Scenario.
Local Open Scope nat_scope.

Example recorded_run_of_the_tool : response_of recorded_completion = recorded_result.
Proof. vm_compute. reflexivity. Qed.

Section Toolkit.
Context {PromptGenerator : Type}.
Context (DailSQLPromptGenerator : str → result PromptGenerator).
Context (generate_prompt : PromptGenerator → dict → result dict).
Context (get_model_by_config_name : str → Model).
Context (more_data more_schema : list str).

Local Abbreviation kit :=
  (toolkit (C := Mock) DailSQLPromptGenerator generate_prompt
     get_model_by_config_name more_data more_schema).

(** The two calls of [add] succeed, in their order. *)
Lemma toolkit_registered :
  service_toolkit (C := Mock) DailSQLPromptGenerator generate_prompt
    get_model_by_config_name more_data more_schema
  = Added kit.
Proof. reflexivity. Qed.

(** What the model is shown: the question for the first tool, the query and
    the permission for the second; no path of a database and no model. *)
Lemma toolkit_shown :
  (λ summary, (s_name summary, pname <$> s_parameters summary)) <$> describe_all kit
  = [ (py "generate_sql_query", [py "question"]);
      (py "query_sqlite", [py "query"; py "allow_change_data"]) ].
Proof. reflexivity. Qed.

(** Through the registry a failure of the prompt builder is a FAILURE of the
    tool, and the loop goes on. *)
Lemma dispatch_builder_failure (question : str) (e : exn) (m : Mock) :
  builder_fails DailSQLPromptGenerator generate_prompt question db_sqlite_path e →
  dispatch kit
    {| tool_name := py "generate_sql_query";
       arguments := {[ py "question" := VStr question ]} |} m
  = (m, failure (HandlerFault e)).
Proof.
  intros Hb.
  pose proof (NL2SQLFacts.generate_sql_query_raises _ _ question db_sqlite_path
                (get_model_by_config_name (py "gpt-4")) e Hb) as Hraise.
  unfold dispatch.
  change (resolve kit _) with
    (inr (B := ToolDescriptor Mock * gmap (list N) Value)
       (A := ExecutionResult)
       (generate_sql_query_tool (C := Mock) DailSQLPromptGenerator generate_prompt
          get_model_by_config_name,
        ({[ py "db_path" := VStr db_sqlite_path; py "model" := VObj (py "gpt-4") ]}
         ∪ {[ py "question" := VStr question ]} : gmap (list N) Value))).
  cbn [handler generate_sql_query_tool].
  change (_ !! py "question") with (Some (VStr question)).
  change (_ !! py "db_path") with (Some (VStr db_sqlite_path)).
  change (_ !! py "model") with (Some (VObj (py "gpt-4"))).
  cbn iota. by rewrite Hraise.
Qed.

(** Through the registry a mutating query without the permission is
    refused and the database is not reached. *)
Lemma dispatch_mutation_refused (query : str) (m : Mock) :
  is_mutating (classify more_data more_schema query) = true →
  dispatch kit (ask_query query) m
  = (m, failure (MutationNotAllowedError query)).
Proof.
  intros Hq. unfold dispatch.
  change (resolve kit _) with
    (inr (B := ToolDescriptor Mock * gmap (list N) Value)
       (A := ExecutionResult)
       (query_sqlite_tool (C := Mock) more_data more_schema,
        ({[ py "database" := VStr db_sqlite_path ]}
         ∪ {[ py "allow_change_data" := VBool false; py "query" := VStr query ]}
         : gmap (list N) Value))).
  cbn [handler query_sqlite_tool].
  change (_ !! py "query") with (Some (VStr query)).
  change (_ !! py "allow_change_data") with (Some (VBool false)).
  cbn iota. by rewrite GuardFacts.execute_refuses.
Qed.

End Toolkit.

(** The first conversation of the notebook, replayed: three REASONING and
    two ACTION phases, the query reaches the database once, and the final
    message is the recorded one. *)
Example recorded_conversation :
  let res :=
    turn (agent 10 3) scripted_model scripted_parse (tools fixed_builder) []
      how_many singers in
  res.1.1 = [(1, Reasoning); (1, Action); (2, Reasoning); (2, Action); (3, Reasoning)]
  ∧ (snd <$> outcome res.1.2)
    = Some (inl (says (agent 10 3) (py "We have 6 unique singers in the database.")))
  ∧ statements res.2 = [count_query].
Proof. vm_compute. done. Qed.

Lemma mutation_guard_witness :
  let query := py "DROP TABLE singer;" in
  ∃ m' r,
    execute [] [] {| connection := singers; mutation_allowed := false |} query
    = (m', r)
    ∧ er_status r = FAILURE
    ∧ error_detail r = Some (MutationNotAllowedError query)
    ∧ error_class (MutationNotAllowedError query) = PolicyViolationError
    ∧ m' = singers
    ∧ call_count m' = call_count singers
    ∧ (singers = fresh_mock (answer singers) → call_count m' = 0).
Proof.
  apply (GuardFacts.mutation_guard [] [] singers false (py "DROP TABLE singer;"));
    reflexivity.
Defined.

Lemma bound_arguments_protected_witness :
  let reg := tools fixed_builder in
  let d :=
    generate_sql_query_tool (C := Mock) fixed_builder
      (fixed_prompt (py "/* schema */ SELECT")) (λ _, fixed_model recorded_completion) in
  let args : gmap (list N) Value := bound_arguments d ∪ arguments ask_elsewhere in
  resolve reg ask_elsewhere = inr (d, args)
  ∧ arguments ask_elsewhere !! py "db_path" = Some (VStr (py "/tmp/other.sqlite"))
  ∧ args !! py "db_path" = Some (VStr db_sqlite_path)
  ∧ dispatch reg ask_elsewhere singers
    = (let '(w', r) := handler d args singers in (w', capture r))
  ∧ name d = tool_name ask_elsewhere
  ∧ (∀ k v, bound_arguments d !! k = Some v → args !! k = Some v)
  ∧ (∀ req' d' args',
        tool_name req' = tool_name ask_elsewhere →
        resolve reg req' = inr (d', args') →
        d' = d ∧ ∀ k, is_Some (bound_arguments d !! k) → args' !! k = args !! k)
  ∧ (∀ summary p,
        summary ∈ describe_all reg → p ∈ s_parameters summary →
        ∃ d0, d0 ∈ reg ∧ summary = describe d0
              ∧ bound_arguments d0 !! pname p = None).
Proof.
  intros reg d args.
  split; [reflexivity|]. split; [reflexivity|]. split; [reflexivity|].
  apply (RegistryFacts.bound_arguments_protected reg ask_elsewhere d args singers).
  reflexivity.
Defined.

Lemma empty_calls_terminate_witness :
  let cfg := agent 10 3 in
  let final := says cfg (py "We have 6 unique singers in the database.") in
  let res :=
    turn cfg scripted_model direct_parse (tools fixed_builder) [] how_many singers in
  res = ([(1, Reasoning)], TERMINATED ([] ++ [how_many] ++ [final]) final, singers)
  ∧ count_phase Reasoning res.1.1 = 1
  ∧ count_phase Action res.1.1 = 0
  ∧ role final = assistant
  ∧ msg_content final = Text (py "We have 6 unique singers in the database.").
Proof.
  apply (LoopFacts.empty_calls_terminate (agent 10 3) scripted_model direct_parse
           (tools fixed_builder) [] how_many singers
           {| thought := []; speak := py "We have 6 unique singers in the database.";
              calls := [] |}).
  - cbn. lia.
  - reflexivity.
  - reflexivity.
Defined.

Lemma loop_bounded_witness :
  let res :=
    turn (agent 2 3) scripted_model insisting_parse (tools fixed_builder) []
      how_many singers in
  (∃ conv', res.1.2 = FAILED conv' (BudgetExhaustedError Iterations))
  ∧ count_phase Action res.1.1 = 2
  ∧ statements res.2 = [count_query; count_query].
Proof.
  intros res. split; [|split].
  - apply (LoopFacts.loop_bounded (agent 2 3) scripted_model insisting_parse
             (tools fixed_builder) [] how_many singers).
    intros c. eexists. split; [reflexivity | done].
  - apply (LoopFacts.loop_bounded (agent 2 3) scripted_model insisting_parse
             (tools fixed_builder) [] how_many singers).
    intros c. eexists. split; [reflexivity | done].
  - vm_compute. reflexivity.
Defined.

End NotebookFacts.

(** ** More on the strings: what [split] and [join] keep *)

Module LayoutFacts.
Import PyStrFacts NL2SQL Layout.

Lemma replace_cons (old new c : char) (s : str) :
  replace old new (c :: s) = (if c =? old then new else c) :: replace old new s.
Proof. done. Qed.

(** A newline is whitespace already: replacing it by a space changes no
    word. *)
Lemma split_whitespace_replace (s acc : str) :
  split_whitespace (replace LF SPACE s) acc = split_whitespace s acc.
Proof.
  revert acc; induction s as [|c s IH]; intros acc; [done|].
  rewrite replace_cons. destruct (c =? LF) eqn:E.
  - apply N.eqb_eq in E as ->. cbn [split_whitespace].
    rewrite isspace_LF, isspace_SPACE. by rewrite !IH.
  - cbn [split_whitespace]. destruct (isspace c); by rewrite !IH.
Qed.

Lemma split_replace (s : str) : split (replace LF SPACE s) = split s.
Proof. apply split_whitespace_replace. Qed.

Lemma collapsed_alt (t : str) :
  collapsed t = before (py "/*") (join (py " ") (split t)).
Proof. unfold collapsed. by rewrite split_replace. Qed.

(** *** Splitting a concatenation *)

Lemma split_whitespace_app (a s acc : str) :
  split_whitespace (a ++ s) acc
  = (scan a acc).1 ++ split_whitespace s (scan a acc).2.
Proof.
  revert acc; induction a as [|c a IH]; intros acc; [done|].
  cbn [app split_whitespace scan]. destruct (isspace c).
  - destruct acc as [|x acc]; [apply IH|]. cbn [fst snd app]. by rewrite IH.
  - apply IH.
Qed.

Lemma scan_all_space (ws : str) : all_space ws = true → scan ws [] = ([], []).
Proof.
  induction ws as [|c ws IH]; [done|]. cbn [all_space forallb scan].
  intros [-> H]%andb_true_iff. by apply IH.
Qed.

Lemma split_whitespace_all_space (ws acc : str) :
  all_space ws = true → split_whitespace ws acc = split_whitespace [] acc.
Proof.
  destruct ws as [|c ws]; [done|]. cbn [all_space forallb].
  intros [Hc H]%andb_true_iff. cbn [split_whitespace]. rewrite Hc.
  assert (Hnil : split_whitespace ws [] = []).
  { clear Hc. induction ws as [|d ws IH]; [done|].
    cbn [forallb] in H. apply andb_true_iff in H as [Hd H].
    cbn [split_whitespace]. rewrite Hd. by apply IH. }
  rewrite Hnil. by destruct acc.
Qed.

Lemma split_leading_space (ws s : str) :
  all_space ws = true → split (ws ++ s) = split s.
Proof.
  intros H. unfold split. by rewrite split_whitespace_app, scan_all_space.
Qed.

Lemma split_trailing_space (s ws : str) :
  all_space ws = true → split (s ++ ws) = split s.
Proof.
  intros H. unfold split. rewrite split_whitespace_app.
  rewrite (split_whitespace_all_space ws) by done.
  rewrite <- (app_nil_r s) at 3. by rewrite split_whitespace_app.
Qed.

Lemma split_all_space (ws : str) : all_space ws = true → split ws = [].
Proof.
  intros H. unfold split. by rewrite split_whitespace_all_space.
Qed.

(** The first word read goes on from the word that was open. *)
Lemma split_whitespace_first (s acc : str) :
  acc ≠ [] → ∃ u l, split_whitespace s acc = (acc ++ u) :: l.
Proof.
  revert acc; induction s as [|c s IH]; intros acc Hacc.
  - exists [], []. destruct acc; [done|]. cbn. by rewrite app_nil_r.
  - cbn [split_whitespace]. destruct (isspace c).
    + destruct acc; [done|]. eexists [], _. by rewrite app_nil_r.
    + destruct (IH (acc ++ [c])) as (u & l & ->); [by destruct acc|].
      exists (c :: u), l. by rewrite <- app_assoc.
Qed.

Lemma join_cons_tail (sep w : str) (l : list str) :
  ∃ m, join sep (w :: l) = w ++ m.
Proof. destruct l; [exists []; cbn; by rewrite app_nil_r | by eexists]. Qed.

Lemma join_app_cons (l1 : list str) (w : str) (l2 : list str) :
  join (py " ") (l1 ++ w :: l2) = spaced l1 ++ join (py " ") (w :: l2).
Proof.
  induction l1 as [|v l1 IH]; [done|].
  change ((v :: l1) ++ w :: l2) with (v :: (l1 ++ w :: l2)).
  assert (Hj : join (py " ") (v :: (l1 ++ w :: l2))
               = v ++ py " " ++ join (py " ") (l1 ++ w :: l2)) by by destruct l1.
  rewrite Hj, IH. unfold spaced. cbn [fmap list_fmap concat].
  by rewrite <- !app_assoc.
Qed.

(** *** The text before a separator looks no further than the separator *)

Lemma startswith_app_long (a m p : str) :
  (length p ≤ length a)%nat → startswith (a ++ m) p = startswith a p.
Proof.
  revert a; induction p as [|x p IH]; intros a Hlen; [done|].
  destruct a as [|b a]; [cbn in Hlen; lia|].
  cbn [app startswith]. rewrite IH; [done|]. cbn in Hlen. lia.
Qed.

Lemma startswith_self_app (p m : str) : startswith (p ++ m) p = true.
Proof. apply startswith_prefix. by exists m. Qed.

Lemma before_starts (sep s : str) : startswith s sep = true → before sep s = [].
Proof. destruct s as [|c s]; [done|]. cbn [before]. by intros ->. Qed.

Lemma before_app_sep (sep x m : str) :
  before sep (x ++ sep ++ m) = before sep (x ++ sep).
Proof.
  induction x as [|c x IH].
  - cbn [app]. rewrite (before_starts sep (sep ++ m)) by apply startswith_self_app.
    symmetry. apply before_starts. by apply startswith_prefix.
  - assert (Heq : (c :: x) ++ sep ++ m = ((c :: x) ++ sep) ++ m)
      by by rewrite app_assoc.
    assert (Hs : startswith ((c :: x) ++ sep ++ m) sep
                 = startswith ((c :: x) ++ sep) sep).
    { rewrite Heq. apply startswith_app_long. rewrite length_app. lia. }
    cbn [app before] in *. rewrite Hs, IH. done.
Qed.

Lemma before_id (sep s : str) : contains s sep = false → before sep s = s.
Proof.
  induction s as [|c s IH]; [done|]. cbn [contains before].
  intros [-> H]%orb_false_iff. by rewrite IH.
Qed.

Lemma before_id_inv (sep s : str) :
  sep ≠ [] → before sep s = s → contains s sep = false.
Proof. intros Hsep H. rewrite <- H. by apply before_no_sep. Qed.

Lemma before_cons_ne (x c : char) (p s : str) :
  x ≠ c → before (x :: p) (c :: s) = c :: before (x :: p) s.
Proof.
  intros H. cbn [before startswith]. by rewrite (proj2 (N.eqb_neq x c) H).
Qed.

(** *** The characters kept *)

Lemma nonspace_app (a b : str) : nonspace (a ++ b) = nonspace a ++ nonspace b.
Proof. apply List.filter_app. Qed.

Lemma nonspace_id (w : str) :
  Forall (λ c, isspace c = false) w → nonspace w = w.
Proof.
  induction 1 as [|c w Hc _ IH]; [done|].
  unfold nonspace in *. cbn [List.filter]. by rewrite Hc, IH.
Qed.

Lemma nonspace_cons_space (c : char) (s : str) :
  isspace c = true → nonspace (c :: s) = nonspace s.
Proof. intros Hc. unfold nonspace. cbn [List.filter]. by rewrite Hc. Qed.

Lemma nonspace_cons_other (c : char) (s : str) :
  isspace c = false → nonspace (c :: s) = c :: nonspace s.
Proof. intros Hc. unfold nonspace. cbn [List.filter]. by rewrite Hc. Qed.

Lemma concat_split_whitespace (s acc : str) :
  concat (split_whitespace s acc) = acc ++ nonspace s.
Proof.
  revert acc; induction s as [|c s IH]; intros acc.
  - destruct acc; [done|]. cbn. by rewrite !app_nil_r.
  - cbn [split_whitespace]. destruct (isspace c) eqn:Hc.
    + rewrite nonspace_cons_space by done.
      destruct acc as [|x acc]; [apply IH|]. cbn [concat]. by rewrite IH.
    + rewrite nonspace_cons_other by done. rewrite IH. by rewrite <- app_assoc.
Qed.

Lemma nonspace_join (l : list str) :
  Forall word l → nonspace (join (py " ") l) = concat l.
Proof.
  induction 1 as [|w l [_ Hw] Hl IH]; [done|].
  destruct l as [|w2 l].
  - cbn. rewrite app_nil_r. by apply nonspace_id.
  - rewrite join_cons2, !nonspace_app, IH, (nonspace_id w Hw). done.
Qed.

(** Collapsing keeps every character that is not whitespace, in order. *)
Lemma nonspace_join_split (s : str) : nonspace (join (py " ") (split s)) = nonspace s.
Proof.
  rewrite nonspace_join by apply split_words.
  unfold split. by rewrite concat_split_whitespace.
Qed.

Lemma nonspace_prefix (a b : str) :
  a `prefix_of` b → nonspace a `prefix_of` nonspace b.
Proof. intros [k ->]. rewrite nonspace_app. by eexists. Qed.

(** *** The length *)

Lemma length_join_cons (w : str) (l : list str) :
  (length (join (py " ") (w :: l)) ≤ length w + 1 + length (join (py " ") l))%nat.
Proof.
  destruct l as [|w2 l]; [cbn; lia|].
  rewrite join_cons2, !length_app. cbn [length py]. cbn. lia.
Qed.

Lemma length_join_split_whitespace (s acc : str) :
  (length (join (py " ") (split_whitespace s acc)) ≤ length acc + length s)%nat.
Proof.
  revert acc; induction s as [|c s IH]; intros acc.
  - destruct acc; cbn; lia.
  - cbn [split_whitespace]. destruct (isspace c).
    + destruct acc as [|x acc].
      * specialize (IH []). cbn [length] in *. lia.
      * pose proof (length_join_cons (x :: acc) (split_whitespace s [])) as H.
        specialize (IH []). cbn [length] in *. lia.
    + specialize (IH (acc ++ [c])). rewrite length_app in IH. cbn [length] in *. lia.
Qed.

Lemma length_join_split (s : str) :
  (length (join (py " ") (split s)) ≤ length s)%nat.
Proof. apply (length_join_split_whitespace s []). Qed.

Lemma length_collapsed (t : str) : (length (collapsed t) ≤ length t)%nat.
Proof.
  rewrite collapsed_alt.
  pose proof (before_prefix (py "/*") (join (py " ") (split t))) as H%prefix_length.
  pose proof (length_join_split t). lia.
Qed.

(** *** Tidy text is left as it is *)

Lemma join_split_whitespace_tidy (s acc : str) :
  Forall (λ c, isspace c = false) acc →
  single_spaced s = true →
  (∀ c, last s = Some c → isspace c = false) →
  (acc = [] → head_nonspace s = true) →
  join (py " ") (split_whitespace s acc) = acc ++ s.
Proof.
  revert acc; induction s as [|c s IH]; intros acc Hacc Hs Hlast Hhead.
  - destruct acc; [done|]. cbn. by rewrite app_nil_r.
  - cbn [single_spaced] in Hs. apply andb_true_iff in Hs as [Hc Hs].
    cbn [split_whitespace]. destruct (isspace c) eqn:Ec.
    + cbn [negb orb] in Hc. apply andb_true_iff in Hc as [Hsp Hh].
      apply N.eqb_eq in Hsp as ->.
      destruct acc as [|x acc]; [by specialize (Hhead eq_refl); cbn in Hhead|].
      destruct s as [|d s]; [by specialize (Hlast SPACE eq_refl)|].
      assert (IH' : join (py " ") (split_whitespace (d :: s) []) = d :: s).
      { apply (IH []); [constructor|done| |done].
        intros c' Hc'. apply Hlast. by rewrite last_cons_cons. }
      destruct (split_whitespace (d :: s) []) as [|w l]; [done|].
      rewrite join_cons2, IH'. done.
    + rewrite IH.
      * by rewrite <- app_assoc.
      * apply Forall_app. split; [done|]. by constructor.
      * done.
      * intros c' Hc'. apply Hlast. destruct s; [done|]. by rewrite last_cons_cons.
      * by destruct acc.
Qed.

Lemma tidy_spec (s : str) :
  tidy s = true →
  head_nonspace s = true ∧ single_spaced s = true
  ∧ ∀ c, last s = Some c → isspace c = false.
Proof.
  unfold tidy. intros [[H1 H2]%andb_true_iff H3]%andb_true_iff.
  split; [done|]. split; [done|]. intros c Hc.
  rewrite <- head_reverse in Hc. destruct (reverse s) as [|d r]; [done|].
  cbn in Hc, H3. injection Hc as ->. by apply negb_true_iff.
Qed.

Lemma join_split_tidy (s : str) : tidy s = true → join (py " ") (split s) = s.
Proof.
  intros (H1 & H2 & H3)%tidy_spec.
  by apply (join_split_whitespace_tidy s []).
Qed.

Lemma join_split_is_tidy (s : str) : tidy (join (py " ") (split s)) = true.
Proof.
  unfold tidy. pose proof (split_words s) as Hw.
  rewrite join_words_head, join_words_single_spaced by done. cbn [andb].
  destruct (reverse (join (py " ") (split s))) as [|c r] eqn:E; [done|].
  cbn. apply negb_true_iff. apply (join_words_last (split s)); [done|].
  by rewrite <- head_reverse, E.
Qed.

(** *** Occurrences of a two-character pattern are neither made nor lost *)

Lemma contains2_sep (a b : str) (c x y : char) :
  c ≠ x → c ≠ y →
  contains (a ++ c :: b) [x; y] = contains a [x; y] || contains b [x; y].
Proof.
  intros Hx Hy. induction a as [|d a IH].
  - cbn [app contains startswith].
    by rewrite (proj2 (N.eqb_neq x c)) by congruence.
  - cbn [app contains]. rewrite IH, orb_assoc. f_equal. f_equal.
    cbn [startswith]. destruct (x =? d); [|done]. cbn [andb].
    destruct a as [|e a]; cbn [app]; [|done].
    by rewrite (proj2 (N.eqb_neq y c)) by congruence.
Qed.

Lemma contains2_join_split_whitespace (s acc : str) (x y : char) :
  isspace x = false → isspace y = false →
  contains (join (py " ") (split_whitespace s acc)) [x; y]
  = contains (acc ++ s) [x; y].
Proof.
  intros Hx Hy. revert acc; induction s as [|c s IH]; intros acc.
  - rewrite app_nil_r. by destruct acc.
  - cbn [split_whitespace]. destruct (isspace c) eqn:Ec.
    + assert (c ≠ x) by (intros ->; congruence).
      assert (c ≠ y) by (intros ->; congruence).
      rewrite contains2_sep by done. specialize (IH []). cbn [app] in IH.
      destruct acc as [|a acc]; [by rewrite IH|].
      destruct (split_whitespace s []) as [|w l] eqn:El.
      * rewrite <- IH. cbn [join]. by rewrite orb_false_r.
      * rewrite join_cons2.
        change (py " " ++ ?t) with (SPACE :: t).
        assert (SPACE ≠ x) by (intros <-; by rewrite isspace_SPACE in Hx).
        assert (SPACE ≠ y) by (intros <-; by rewrite isspace_SPACE in Hy).
        by rewrite contains2_sep, IH by done.
    + rewrite IH. by rewrite <- app_assoc.
Qed.

(** Whether a comment opener is there is the same before and after the
    collapse. *)
Lemma contains_comment_join_split (s : str) :
  contains (join (py " ") (split s)) (py "/*") = contains s (py "/*").
Proof. by apply (contains2_join_split_whitespace s [] 47 42). Qed.

(** *** A word in front *)

Lemma scan_word (p acc : str) :
  Forall (λ c, isspace c = false) p → scan p acc = ([], acc ++ p).
Proof.
  intros Hp. revert acc. induction Hp as [|c p Hc _ IH]; intros acc.
  - by rewrite app_nil_r.
  - cbn [scan]. rewrite Hc, IH. by rewrite <- app_assoc.
Qed.

(** After whitespace, the first word of the collapsed text goes on from the
    characters that come first. *)
Lemma join_split_starts (ws p rest : str) :
  all_space ws = true → Forall (λ c, isspace c = false) p → p ≠ [] →
  ∃ z, join (py " ") (split (ws ++ p ++ rest)) = p ++ z.
Proof.
  intros Hws Hp Hne. rewrite split_leading_space by done.
  unfold split. rewrite split_whitespace_app, scan_word by done.
  cbn [fst snd app].
  destruct (split_whitespace_first rest p Hne) as (u & l & ->).
  destruct (join_cons_tail (py " ") (p ++ u) l) as [m ->].
  exists (u ++ m). by rewrite <- app_assoc.
Qed.

Lemma tidy_intro (s : str) :
  head_nonspace s = true → single_spaced s = true →
  (∀ c, last s = Some c → isspace c = false) → tidy s = true.
Proof.
  intros H1 H2 H3. unfold tidy. rewrite H1, H2. cbn [andb].
  destruct (reverse s) as [|c r] eqn:E; [done|]. cbn.
  apply negb_true_iff, H3. by rewrite <- head_reverse, E.
Qed.

End LayoutFacts.

(** ** More on the tool: what a completion becomes *)

Module ToolFacts.
Import PyStrFacts NL2SQL NL2SQLFacts Layout LayoutFacts.

Lemma response_shape (prompt : str) (model : Model) (t : str) :
  completes model prompt t →
  get_response_from_prompt prompt model
  = Ok ((if startswith (collapsed t) (py "SELECT") then collapsed t
         else py "SELECT " ++ collapsed t) ++ [LF]).
Proof. apply get_response_from_prompt_eq. Qed.

(** X1.  The calls [replace("\n", " ")] and [strip()] of
    [get_response_from_prompt] change nothing: without them the function
    returns the same for every prompt and model. *)
Theorem replace_and_strip_redundant (prompt : str) (model : Model) :
  get_response_from_prompt prompt model = get_response_plain prompt model.
Proof.
  unfold get_response_from_prompt, get_response_plain.
  destruct (model _) as [r|e]; [|done]. cbn [mbind result_bind].
  by rewrite split_replace, strip_join_split.
Qed.

(** X2.  A completion that is already a tidy query (words separated by
    single spaces, no whitespace at its ends, SELECT in front, no ["/*"])
    comes back unchanged, with a newline after it. *)
Theorem tidy_select_unchanged (prompt : str) (model : Model) (t : str) :
  completes model prompt t →
  tidy t = true →
  startswith t (py "SELECT") = true →
  contains t (py "/*") = false →
  get_response_from_prompt prompt model = Ok (t ++ [LF]).
Proof.
  intros Hc Ht Hs Hn. rewrite (response_shape _ _ _ Hc), collapsed_alt.
  rewrite join_split_tidy, before_id by done. by rewrite Hs.
Qed.

Lemma tidy_select_unchanged_witness :
  get_response_from_prompt (py "p")
    (fixed_model (py "SELECT Country, COUNT(*) FROM singer GROUP BY Country"))
  = Ok (py "SELECT Country, COUNT(*) FROM singer GROUP BY Country" ++ [LF]).
Proof.
  apply (tidy_select_unchanged (py "p")
           (fixed_model (py "SELECT Country, COUNT(*) FROM singer GROUP BY Country")));
    reflexivity.
Defined.

(** X3.  The payload is never shorter than SELECT and a newline, and never
    longer than the completion by more than eight characters. *)
Theorem payload_length (prompt : str) (model : Model) (t : str) :
  completes model prompt t →
  ∃ payload,
    get_response_from_prompt prompt model = Ok payload
    ∧ (7 ≤ length payload ≤ length t + 8)%nat.
Proof.
  intros Hc. eexists. split; [by apply get_response_from_prompt_eq|].
  unfold response_of. rewrite length_app. cbn [length].
  pose proof (body_starts_select t) as [k Hk]%startswith_prefix.
  pose proof (length_collapsed t) as Hl. split.
  - rewrite Hk, length_app. change (length (py "SELECT")) with 6%nat. lia.
  - unfold body_of. destruct (startswith (collapsed t) _); [lia|].
    rewrite length_app. change (length (py "SELECT ")) with 7%nat. lia.
Qed.

Lemma payload_length_witness :
  ∃ payload,
    get_response_from_prompt (py "p") (fixed_model (py "1")) = Ok payload
    ∧ (7 ≤ length payload ≤ length (py "1") + 8)%nat.
Proof. apply payload_length. reflexivity. Defined.

(** X4.  Up to the cut, no character of the completion that is not
    whitespace is dropped, changed or moved: those of the collapsed
    completion are the first of the completion's, and all of them when the
    completion holds no ["/*"]. *)
Theorem characters_kept (prompt : str) (model : Model) (t : str) :
  completes model prompt t →
  ∃ n,
    get_response_from_prompt prompt model
    = Ok ((if startswith n (py "SELECT") then n else py "SELECT " ++ n) ++ [LF])
    ∧ nonspace n `prefix_of` nonspace t
    ∧ (contains t (py "/*") = false → nonspace n = nonspace t).
Proof.
  intros Hc. exists (collapsed t). split; [by apply response_shape|].
  rewrite collapsed_alt, <- (nonspace_join_split t). split.
  - apply nonspace_prefix, before_prefix.
  - intros Hn. rewrite before_id; [done|]. by rewrite contains_comment_join_split.
Qed.

Lemma characters_kept_witness :
  ∃ n,
    get_response_from_prompt (py "p") (fixed_model (py " a  b /* c"))
    = Ok ((if startswith n (py "SELECT") then n else py "SELECT " ++ n) ++ [LF])
    ∧ nonspace n `prefix_of` nonspace (py " a  b /* c")
    ∧ (contains (py " a  b /* c") (py "/*") = false
       → nonspace n = nonspace (py " a  b /* c")).
Proof. apply characters_kept. reflexivity. Defined.

(** X5.  The cut is decided by the completion as the model wrote it: the
    collapsed completion is cut short exactly when the completion holds
    ["/*"]; the collapse neither makes nor loses a comment opener. *)
Theorem cut_iff_comment (prompt : str) (model : Model) (t : str) :
  completes model prompt t →
  ∃ n,
    get_response_from_prompt prompt model
    = Ok ((if startswith n (py "SELECT") then n else py "SELECT " ++ n) ++ [LF])
    ∧ n `prefix_of` join (py " ") (split t)
    ∧ (n = join (py " ") (split t) ↔ contains t (py "/*") = false).
Proof.
  intros Hc. exists (collapsed t). split; [by apply response_shape|].
  rewrite collapsed_alt. split; [apply before_prefix|].
  rewrite <- contains_comment_join_split. split.
  - by apply before_id_inv.
  - apply before_id.
Qed.

Lemma cut_iff_comment_witness :
  ∃ n,
    get_response_from_prompt (py "p") (fixed_model (py "SELECT 1 / * 2"))
    = Ok ((if startswith n (py "SELECT") then n else py "SELECT " ++ n) ++ [LF])
    ∧ n `prefix_of` join (py " ") (split (py "SELECT 1 / * 2"))
    ∧ (n = join (py " ") (split (py "SELECT 1 / * 2"))
       ↔ contains (py "SELECT 1 / * 2") (py "/*") = false).
Proof. apply cut_iff_comment. reflexivity. Defined.

(** X6.  A completion of whitespace only, or one whose first characters
    after whitespace are ["/*"], loses everything: the payload is SELECT, a
    space and a newline. *)
Theorem blank_or_comment_first (prompt : str) (model : Model) (t ws : str) :
  completes model prompt t →
  all_space ws = true →
  (t = ws ∨ ∃ rest, t = ws ++ py "/*" ++ rest) →
  get_response_from_prompt prompt model = Ok (py "SELECT " ++ [LF]).
Proof.
  intros Hc Hws Ht. rewrite (response_shape _ _ _ Hc).
  assert (Hn : collapsed t = []).
  { rewrite collapsed_alt. destruct Ht as [-> | [rest ->]].
    - by rewrite split_all_space.
    - destruct (join_split_starts ws (py "/*") rest Hws) as [z ->];
        [by repeat constructor|done|].
      apply before_starts, startswith_self_app. }
  by rewrite Hn.
Qed.

Lemma blank_or_comment_first_witness :
  get_response_from_prompt (py "p")
    (fixed_model (py "  /* the singers */ SELECT COUNT(*) FROM singer"))
  = Ok (py "SELECT " ++ [LF]).
Proof.
  apply (blank_or_comment_first (py "p") _
           (py "  /* the singers */ SELECT COUNT(*) FROM singer") (py "  "));
    [reflexivity | reflexivity |].
  right. by exists (py " the singers */ SELECT COUNT(*) FROM singer").
Defined.

Lemma before_select (z : str) :
  before (py "/*") (py "SELECT" ++ z) = py "SELECT" ++ before (py "/*") z.
Proof.
  change (py "/*") with [47; 42].
  change (py "SELECT" ++ ?u) with (83 :: 69 :: 76 :: 69 :: 67 :: 84 :: u).
  by rewrite !before_cons_ne.
Qed.

(** X7.  The test for SELECT is a test of the first six characters after
    leading whitespace, not of a word: whatever follows them (a space, or
    more letters as in SELECTED), nothing is put in front, and the payload
    starts with the completion's own SELECT. *)
Theorem select_in_front_kept (prompt : str) (model : Model) (ws rest : str) :
  completes model prompt (ws ++ py "SELECT" ++ rest) →
  all_space ws = true →
  ∃ n,
    get_response_from_prompt prompt model = Ok (py "SELECT" ++ n ++ [LF])
    ∧ (py "SELECT" ++ n) `prefix_of` join (py " ") (split (ws ++ py "SELECT" ++ rest)).
Proof.
  intros Hc Hws.
  destruct (join_split_starts ws (py "SELECT") rest Hws) as [z Hz];
    [by repeat constructor|done|].
  exists (before (py "/*") z). rewrite (response_shape _ _ _ Hc), collapsed_alt, Hz.
  rewrite before_select, startswith_self_app. split; [by rewrite <- app_assoc|].
  apply prefix_app, before_prefix.
Qed.

Lemma select_in_front_kept_witness :
  ∃ n,
    get_response_from_prompt (py "p") (fixed_model (py "  " ++ py "SELECT" ++ py "ED rows"))
    = Ok (py "SELECT" ++ n ++ [LF])
    ∧ (py "SELECT" ++ n)
      `prefix_of` join (py " ") (split (py "  " ++ py "SELECT" ++ py "ED rows")).
Proof. apply select_in_front_kept; reflexivity. Defined.

Lemma collapsed_comment (a b : str) :
  collapsed (a ++ py "/*" ++ b)
  = before (py "/*") ((spaced (scan a []).1 ++ (scan a []).2) ++ py "/*").
Proof.
  rewrite collapsed_alt. unfold split. rewrite split_whitespace_app.
  rewrite (split_whitespace_app (py "/*") b).
  rewrite (scan_word (py "/*")) by by repeat constructor.
  cbn [fst snd]. rewrite app_nil_l.
  destruct (split_whitespace_first b ((scan a []).2 ++ py "/*")) as (u & l & ->);
    [by destruct (scan a []).2|].
  rewrite join_app_cons.
  destruct (join_cons_tail (py " ") (((scan a []).2 ++ py "/*") ++ u) l) as [m ->].
  rewrite <- (before_app_sep (py "/*") _ (u ++ m)).
  f_equal. by rewrite <- !app_assoc.
Qed.

(** X8.  What follows the first ["/*"] of a completion has no part in the
    result: two completions that are the same up to a ["/*"] give the same
    payload. *)
Theorem after_comment_ignored
    (prompt prompt' : str) (model model' : Model) (a b b' : str) :
  completes model prompt (a ++ py "/*" ++ b) →
  completes model' prompt' (a ++ py "/*" ++ b') →
  get_response_from_prompt prompt model = get_response_from_prompt prompt' model'.
Proof.
  intros Hc Hc'.
  rewrite (response_shape _ _ _ Hc), (response_shape _ _ _ Hc').
  by rewrite !collapsed_comment.
Qed.

Lemma after_comment_ignored_witness :
  get_response_from_prompt (py "p")
    (fixed_model (py "SELECT 1 " ++ py "/*" ++ py " one */"))
  = get_response_from_prompt (py "q")
      (fixed_model (py "SELECT 1 " ++ py "/*" ++ py "*/ ; DROP TABLE singer")).
Proof.
  apply (after_comment_ignored _ _ _ _ (py "SELECT 1 ") (py " one */")
           (py "*/ ; DROP TABLE singer"));
    reflexivity.
Defined.

Lemma join_words_nonempty (l : list str) :
  Forall word l → l ≠ [] → join (py " ") l ≠ [].
Proof.
  intros Hl Hne. destruct Hl as [|w l [Hw _] _]; [done|].
  destruct (join_cons_tail (py " ") w l) as [m ->]. by destruct w.
Qed.

Lemma body_no_comment' (t : str) : contains (body_of t) (py "/*") = false.
Proof.
  unfold body_of. destruct (startswith _ _).
  - apply collapsed_no_comment.
  - rewrite select_prefix_no_comment. apply collapsed_no_comment.
Qed.

Lemma body_tidy (t : str) :
  contains t (py "/*") = false → split t ≠ [] → tidy (body_of t) = true.
Proof.
  intros Hn Hw.
  assert (Hcol : collapsed t = join (py " ") (split t)).
  { rewrite collapsed_alt. apply before_id. by rewrite contains_comment_join_split. }
  pose proof (join_split_is_tidy t) as (H1 & H2 & H3)%tidy_spec.
  pose proof (join_words_nonempty _ (split_words t) Hw) as Hne.
  unfold body_of. rewrite Hcol. destruct (startswith _ _).
  - by apply tidy_intro.
  - apply tidy_intro; [done|by apply select_prefix_single_spaced|].
    intros c Hc. apply H3. rewrite last_app in Hc.
    destruct (last (join (py " ") (split t))) eqn:E; [done|].
    by apply last_None in E.
Qed.

(** X9.  When the completion holds a word and no ["/*"], the payload is a
    fixed point: given back to the function as a completion, it is returned
    as it is. *)
Theorem own_output_is_fixed (prompt : str) (model : Model) (t : str) :
  completes model prompt t →
  contains t (py "/*") = false →
  split t ≠ [] →
  ∃ payload,
    get_response_from_prompt prompt model = Ok payload
    ∧ ∀ prompt' model',
        completes model' prompt' payload →
        get_response_from_prompt prompt' model' = Ok payload.
Proof.
  intros Hc Hn Hw. exists (body_of t ++ [LF]).
  split; [by apply get_response_from_prompt_eq|].
  intros prompt' model' Hc'. rewrite (response_shape _ _ _ Hc'), collapsed_alt.
  rewrite split_trailing_space by done.
  rewrite join_split_tidy by by apply body_tidy.
  rewrite before_id by apply body_no_comment'.
  by rewrite body_starts_select.
Qed.

Lemma own_output_is_fixed_witness :
  ∃ payload,
    get_response_from_prompt (py "p") (fixed_model (py " count  the singers ")) = Ok payload
    ∧ ∀ prompt' model',
        completes model' prompt' payload →
        get_response_from_prompt prompt' model' = Ok payload.
Proof.
  apply (own_output_is_fixed _ _ (py " count  the singers "));
    [reflexivity | reflexivity | done].
Defined.

(** X10.  Only the words of the completion count: two completions that
    [split()] into the same words, whatever whitespace separates and
    surrounds them, give the same payload. *)
Theorem only_words_count
    (prompt prompt' : str) (model model' : Model) (t t' : str) :
  completes model prompt t →
  completes model' prompt' t' →
  split t = split t' →
  get_response_from_prompt prompt model = get_response_from_prompt prompt' model'.
Proof.
  intros Hc Hc' Hs.
  rewrite (response_shape _ _ _ Hc), (response_shape _ _ _ Hc').
  by rewrite !collapsed_alt, Hs.
Qed.

Lemma only_words_count_witness :
  get_response_from_prompt (py "p") (fixed_model (py "SELECT 1"))
  = get_response_from_prompt (py "q") (fixed_model (py "
  SELECT	
 1  ")).
Proof.
  apply (only_words_count _ _ _ _ (py "SELECT 1") (py "
  SELECT	
 1  "));
    reflexivity.
Defined.

Section Tool.
Context {PromptGenerator : Type}.
Context (DailSQLPromptGenerator : str → result PromptGenerator).
Context (generate_prompt : PromptGenerator → dict → result dict).

Local Abbreviation tool := (generate_sql_query DailSQLPromptGenerator generate_prompt).

(** X11.  [generate_sql_query] returns a response exactly when the
    constructor of the prompt builder and [generate_prompt] return, the
    prepared prompt has the key ["prompt"] and the model call returns; the
    normalization is never what makes it raise. *)
Theorem returns_iff_collaborators_return
    (question db_path : str) (model : Model) (resp : ServiceResponse) :
  tool question db_path model = Ok resp
  ↔ ∃ completion,
      answers DailSQLPromptGenerator generate_prompt question db_path model completion
      ∧ resp = mkServiceResponse SUCCESS (response_of completion).
Proof.
  split.
  - unfold generate_sql_query.
    destruct (DailSQLPromptGenerator db_path) as [h|] eqn:Eh; [|done].
    cbn [mbind result_bind].
    destruct (generate_prompt h _) as [d|] eqn:Ed; [|done]. cbn [mbind result_bind].
    unfold getitem. destruct (d !! py "prompt") as [p|] eqn:Ep; [|done].
    cbn [mbind result_bind].
    destruct (model [ {[ py "role" := py "assistant"; py "content" := p ]} ])
      as [[t]|e] eqn:Em.
    + rewrite (get_response_from_prompt_eq p model t Em). cbn [mbind result_bind].
      intros [= <-]. exists t. split; [|done]. by exists h, d, p.
    + unfold get_response_from_prompt. rewrite Em. done.
  - intros (t & Ha & ->). by apply generate_sql_query_eq.
Qed.

(** X12.  A failure of the model call, after the prompt was built, leaves
    [generate_sql_query] as the exception raised. *)
Theorem model_failure_propagates
    (question db_path : str) (model : Model)
    (prompt_helper : PromptGenerator) (prepared_prompt : dict) (prompt : str)
    (e : exn) :
  DailSQLPromptGenerator db_path = Ok prompt_helper →
  generate_prompt prompt_helper {[ py "content" := question ]} = Ok prepared_prompt →
  prepared_prompt !! py "prompt" = Some prompt →
  model [ {[ py "role" := py "assistant"; py "content" := prompt ]} ] = Raise e →
  tool question db_path model = Raise e.
Proof.
  intros Hh Hd Hp Hm. unfold generate_sql_query.
  rewrite Hh. cbn [mbind result_bind]. rewrite Hd. cbn [mbind result_bind].
  unfold getitem. rewrite Hp. cbn [mbind result_bind].
  unfold get_response_from_prompt. by rewrite Hm.
Qed.

(** X13.  A prepared prompt without the key ["prompt"] makes
    [generate_sql_query] raise [KeyError] on that key, whatever the model:
    the model is not asked. *)
Theorem missing_prompt_key
    (question db_path : str)
    (prompt_helper : PromptGenerator) (prepared_prompt : dict) :
  DailSQLPromptGenerator db_path = Ok prompt_helper →
  generate_prompt prompt_helper {[ py "content" := question ]} = Ok prepared_prompt →
  prepared_prompt !! py "prompt" = None →
  ∀ model : Model, tool question db_path model = Raise (KeyError (py "prompt")).
Proof.
  intros Hh Hd Hp model. unfold generate_sql_query.
  rewrite Hh. cbn [mbind result_bind]. rewrite Hd. cbn [mbind result_bind].
  unfold getitem. by rewrite Hp.
Qed.

End Tool.

Lemma returns_iff_collaborators_return_witness :
  generate_sql_query fixed_builder (fixed_prompt (py "p")) (py "q") (py "db")
    (fixed_model (py "SELECT 1"))
  = Ok (mkServiceResponse SUCCESS (py "SELECT 1" ++ [LF]))
  ∧ ∃ completion,
      answers fixed_builder (fixed_prompt (py "p")) (py "q") (py "db")
        (fixed_model (py "SELECT 1")) completion
      ∧ mkServiceResponse SUCCESS (py "SELECT 1" ++ [LF])
        = mkServiceResponse SUCCESS (response_of completion).
Proof.
  split; [reflexivity|].
  apply (returns_iff_collaborators_return fixed_builder (fixed_prompt (py "p"))).
  reflexivity.
Defined.

Lemma model_failure_propagates_witness :
  generate_sql_query fixed_builder (fixed_prompt (py "p")) (py "q") (py "db")
    (λ _, Raise (Fault (py "rate limit")))
  = Raise (Fault (py "rate limit")).
Proof.
  apply (model_failure_propagates fixed_builder (fixed_prompt (py "p"))
           (py "q") (py "db") _ tt {[ py "prompt" := py "p" ]} (py "p"));
    reflexivity.
Defined.

Lemma missing_prompt_key_witness :
  generate_sql_query fixed_builder (λ _ _, Ok {[ py "question" := py "q" ]})
    (py "q") (py "db") (fixed_model (py "SELECT 1"))
  = Raise (KeyError (py "prompt")).
Proof.
  apply (missing_prompt_key fixed_builder (λ _ _, Ok {[ py "question" := py "q" ]})
           (py "q") (py "db") tt {[ py "question" := py "q" ]});
    reflexivity.
Defined.

End ToolFacts.
